(** * WatermarkLabelTool: the labelling front end, embedded in Rocq

    The repository ships two front ends over the same REST surface:

    - the store-based one ([state.js], [api.js], [ui.js] and the second
      [app.js]): a [Store] class with immutable replacement and
      subscribers, and controller functions [selectDataset],
      [loadCurrentImage], [handleNavigate], [handleUndo], ...
    - the older index-based one (the first [app.js] with its own [ui] and
      [api] objects): a module-level mutable [state] object and the
      functions [selectType], [loadCurrentImage], [loadImageByIndex],
      [navigateNext], [annotate], ...

    Both are modelled.  An [async] function becomes a computation in the
    monad [M]: it threads the page (store or state object), appends to a
    chronological log of observable effects (network requests, toasts,
    listener deliveries, other UI calls) and asks an environment for the
    outcome of every [await api.x(...)], which either resolves with a typed
    reply or rejects with an error message.  One run of [M] is one
    uninterrupted execution of the function; executions of two handlers
    interleaved at their awaits are not modelled. *)

From Stdlib Require Import ZArith String List Bool Lia DecimalString.
From Stdlib Require Import Ascii Sorting.Sorted Sorting.Permutation.
Import ListNotations.
Local Open Scope Z_scope.
Local Open Scope string_scope.

Set Implicit Arguments.

(** ** JavaScript values *)

(** [`${n}`] for an integer [n] (decimal digits, a leading minus sign). *)
Definition show_Z (z : Z) : string := NilZero.string_of_int (Z.to_int z).

(** [x || 0] where [x] is a number that may be missing. *)
Definition or0 (x : option Z) : Z :=
  match x with
  | Some z => z
  | None => 0
  end.

(** Truthiness of a value that is a string or [null]: [null] and the empty
    string are falsy. *)
Definition truthy (x : option string) : bool :=
  match x with
  | None | Some EmptyString => false
  | Some _ => true
  end.

(** [a === b] for a nullable string [a] and a string [b]. *)
Definition strict_eq (a : option string) (b : string) : bool :=
  match a with
  | Some s => String.eqb s b
  | None => false
  end.

(** ** Wire records of the REST service *)

Module Counts.
(** [target_count] / [current_count]: either field may be absent. *)
Record t := mk { watermarked : option Z; non_watermarked : option Z }.
End Counts.

Module Dataset.
Record t := mk {
  name : string;
  target_count : option Counts.t;
  current_count : option Counts.t;
  priority : option Z;
  annotated_count : Z;
  total_images : Z
}.
End Dataset.

Module ImageInfo.
Record t := mk { path : string; index : Z; status : string }.
End ImageInfo.

Module Progress.
Record t := mk {
  total_images : Z;
  annotated_count : Z;
  watermarked_count : Z;
  non_watermarked_count : Z
}.
End Progress.

Module Answer.
(** Body of the navigate and undo/redo replies.  [success] may be
    absent ([None]); [index] and [message] are read only on some paths. *)
Record t := mk { success : option bool; index : Z; message : string }.
End Answer.

(** A request as it appears on the wire (method names of [api]). *)
Inductive Req : Type :=
| GetTypes (skipScan : bool)
| GetCurrentImage (datasetType : string)
| GetImageByIndex (datasetType : string) (index : Z)
| GetImageBase64 (datasetType : string) (index : Z)
| DeleteImage (datasetType imagePath : string)
| CreateAnnotation (imagePath : string) (label : Z) (datasetType : string)
| SkipImage (imagePath datasetType : string)
| Undo
| Redo
| GetProgress (datasetType : string)
| NavigateNext (datasetType : string)
| NavigatePrev (datasetType : string).

(** The promise returned by [api.request]: it resolves with the parsed body
    or rejects with an [Error] carrying a message. *)
Inductive reply (A : Type) : Type :=
| Resolved (a : A)
| Rejected (message : string).
Arguments Rejected {A} message.

(** The environment of one run: the remote service and the operator.  The
    first argument of every field is the number of interactions that
    happened before, so that the same request may be answered differently
    at different times. *)
Module Remote.
Record Env := mkEnv {
  getTypes : nat -> bool -> reply (list Dataset.t);
  getCurrentImage : nat -> string -> reply ImageInfo.t;
  getImageByIndex : nat -> string -> Z -> reply ImageInfo.t;
  getImageBase64 : nat -> string -> Z -> reply string;
  deleteImage : nat -> string -> string -> reply unit;
  createAnnotation : nat -> string -> Z -> string -> reply unit;
  skipImage : nat -> string -> string -> reply unit;
  undo : nat -> reply Answer.t;
  redo : nat -> reply Answer.t;
  getProgress : nat -> string -> reply Progress.t;
  navigateNext : nat -> string -> reply Answer.t;
  navigatePrev : nat -> string -> reply Answer.t;
  confirm : nat -> string -> bool
}.
End Remote.
Abbreviation Env := Remote.Env.

(** ** Observable effects *)

Inductive UiCall : Type :=
| SetHeader (datasetName : string)
| HighlightButton (id : string)
| ConsoleError (message : string)
| ShowLoading
| ShowImage (base64 : string)
| HideImage
| UpdateStatusBadge (status : string)
| UpdateFilePath (path : option string)
| UpdateProgress (current total : Z)
| SetTextContent (id text : string)
| RenderTypeList (types : list Dataset.t) (activeType : option string)
| RenderTypeSelector (types : list Dataset.t) (activeType : option string).

(** [Snap] is what a store listener receives.  A request is logged together
    with the value the loading flag has at the moment it is issued. *)
Inductive Event (Snap : Type) : Type :=
| Request (loading : bool) (r : Req)
| Toast (message type : string)
| Confirm (message : string) (answer : bool)
| Deliver (listener : nat) (snapshot : Snap)
| Ui (c : UiCall).
Arguments Request {Snap} loading r.
Arguments Toast {Snap} message type.
Arguments Confirm {Snap} message answer.
Arguments Ui {Snap} c.

(** ** The monad of handlers *)

Section Handlers.
(** [Page] is the mutable page state, [Snap] the listener snapshots. *)
Variables Page Snap : Type.
Variable loading : Page -> bool.

Record World := mkWorld {
  page : Page;
  log : list (Event Snap);
  tick : nat
}.

(** How a function body ends: normally, or by a thrown [Error]. *)
Inductive Outcome (A : Type) : Type :=
| Return (a : A)
| Throw (message : string).
Arguments Throw {A} message.

Definition M (A : Type) : Type := Env -> World -> Outcome A * World.

Definition ret {A} (a : A) : M A := fun _ w => (Return a, w).

Definition bind {A B} (m : M A) (k : A -> M B) : M B :=
  fun env w =>
    match m env w with
    | (Return a, w') => k a env w'
    | (Throw e, w') => (Throw e, w')
    end.

Definition throw {A} (e : string) : M A := fun _ w => (Throw e, w).

(** [try { body } catch (err) { handler }] *)
Definition try_catch {A} (body : M A) (handler : string -> M A) : M A :=
  fun env w =>
    match body env w with
    | (Return a, w') => (Return a, w')
    | (Throw e, w') => handler e env w'
    end.

(** [try { body } finally { fin }] *)
Definition finally {A} (body : M A) (fin : M unit) : M A :=
  fun env w =>
    match body env w with
    | (o, w') =>
        match fin env w' with
        | (Return _, w'') => (o, w'')
        | (Throw e, w'') => (Throw e, w'')
        end
    end.

Definition get_page : M Page := fun _ w => (Return (page w), w).

Definition modify_page (f : Page -> Page) : M unit :=
  fun _ w => (Return tt, mkWorld (f (page w)) (log w) (tick w)).

Definition emit (es : list (Event Snap)) : M unit :=
  fun _ w => (Return tt, mkWorld (page w) (log w ++ es) (tick w)).

(** [await api.x(...)]: the request goes out, the environment answers. *)
Definition await {A} (r : Req) (answer : Env -> nat -> reply A) : M A :=
  fun env w =>
    let w' := mkWorld (page w) (log w ++ [Request (loading (page w)) r])
                      (S (tick w)) in
    match answer env (tick w) with
    | Resolved a => (Return a, w')
    | Rejected e => (Throw e, w')
    end.

(** [confirm(message)] *)
Definition ask (message : string) : M bool :=
  fun env w =>
    let b := Remote.confirm env (tick w) message in
    (Return b, mkWorld (page w) (log w ++ [Confirm message b]) (S (tick w))).

Definition toast (message type : string) : M unit :=
  emit [Toast message type].

Definition ui (c : UiCall) : M unit := emit [Ui c].

(** The requests of a log, in the order they were issued. *)
Fixpoint requests (l : list (Event Snap)) : list Req :=
  match l with
  | [] => []
  | Request _ r :: l' => r :: requests l'
  | _ :: l' => requests l'
  end.

(** Every request of the log was issued while the loading flag was set. *)
Fixpoint issued_while_loading (l : list (Event Snap)) : bool :=
  match l with
  | [] => true
  | Request b _ :: l' => b && issued_while_loading l'
  | _ :: l' => issued_while_loading l'
  end.

(** The toasts of a log. *)
Fixpoint toasts (l : list (Event Snap)) : list (string * string) :=
  match l with
  | [] => []
  | Toast m t :: l' => (m, t) :: toasts l'
  | _ :: l' => toasts l'
  end.

(** The snapshots handed to store listeners, in order of delivery. *)
Fixpoint snapshots (l : list (Event Snap)) : list Snap :=
  match l with
  | [] => []
  | Deliver _ s :: l' => s :: snapshots l'
  | _ :: l' => snapshots l'
  end.

(** The events logged between the worlds [w] and [w'] of one run. *)
Definition since (w w' : World) : list (Event Snap) :=
  skipn (length (log w)) (log w').

(** [m] keeps the property [P] of the page: from a page with [P], the page
    it leaves has [P] again, however [m] ends. *)
Definition preserves (P : Page -> Prop) {A} (m : M A) : Prop :=
  forall env w, P (page w) -> P (page (snd (m env w))).

End Handlers.

Arguments Throw {A} message.
Arguments ret {Page Snap A} a.
Arguments throw {Page Snap A} e.
Arguments get_page {Page Snap}.
Arguments modify_page {Page Snap} f.
Arguments emit {Page Snap} es.
Arguments ask {Page Snap} message.
Arguments toast {Page Snap} message type.
Arguments ui {Page Snap} c.

Declare Scope handler_scope.
Delimit Scope handler_scope with handler.
Notation "x <- m ;; k" := (bind m (fun x => k))
  (at level 61, m at next level, right associativity) : handler_scope.
Notation "m ;; k" := (bind m (fun _ => k))
  (at level 61, right associativity) : handler_scope.

(** * The store-based front end *)

(** ** [state.js]: class [Store] *)

Module Store.

Record Image := mkImage {
  data : option string;      (* base64 data or null *)
  path : option string;      (* file path or null *)
  index : Z;
  total : Z;
  status : string
}.

Record Stats := mkStats {
  watermarked : Z;
  noWatermarked : Z;
  targetWatermarked : Z;
  targetNoWatermarked : Z
}.

Record State := mkState {
  currentDataset : option string;
  datasets : list Dataset.t;
  image : Image;
  stats : Stats;
  isLoading : bool
}.

(** Object literals passed to the update methods: a field is either
    absent ([None]) or present with a value. *)
Record ImagePatch := mkImagePatch {
  data' : option (option string);
  path' : option (option string);
  index' : option Z;
  total' : option Z;
  status' : option string
}.

Record StatsPatch := mkStatsPatch {
  watermarked' : option Z;
  noWatermarked' : option Z;
  targetWatermarked' : option Z;
  targetNoWatermarked' : option Z
}.

Record StatePatch := mkStatePatch {
  currentDataset' : option (option string);
  datasets' : option (list Dataset.t);
  image' : option Image;
  stats' : option Stats;
  isLoading' : option bool
}.

Definition noImagePatch : ImagePatch := mkImagePatch None None None None None.
Definition noStatsPatch : StatsPatch := mkStatsPatch None None None None.
Definition noStatePatch : StatePatch := mkStatePatch None None None None None.

(** One field of [{ ...old, ...patch }]. *)
Definition spread {A} (old : A) (patch : option A) : A :=
  match patch with
  | Some v => v
  | None => old
  end.

Definition spreadImage (old : Image) (p : ImagePatch) : Image :=
  mkImage (spread (data old) (data' p)) (spread (path old) (path' p))
          (spread (index old) (index' p)) (spread (total old) (total' p))
          (spread (status old) (status' p)).

Definition spreadStats (old : Stats) (p : StatsPatch) : Stats :=
  mkStats (spread (watermarked old) (watermarked' p))
          (spread (noWatermarked old) (noWatermarked' p))
          (spread (targetWatermarked old) (targetWatermarked' p))
          (spread (targetNoWatermarked old) (targetNoWatermarked' p)).

Definition spreadState (old : State) (p : StatePatch) : State :=
  mkState (spread (currentDataset old) (currentDataset' p))
          (spread (datasets old) (datasets' p))
          (spread (image old) (image' p))
          (spread (stats old) (stats' p))
          (spread (isLoading old) (isLoading' p)).

(** The store object.  [state] is the object [this.state] refers to now;
    [retired] are the state objects it referred to before, oldest first:
    they stay allocated (a caller may still hold one) and the object at
    address [i] of the heap is [nth i (retired ++ [state])].
    [listeners] is the [Set] of subscribers in insertion order; a
    listener is known by a number, and calling it is recorded in the log
    with the object it is handed.  What a listener does with that object
    is rendering and is no part of the store, whose methods are modelled
    here as they are written.  The one listener of the page writes to one
    thing it is handed, the array [datasets], which it sorts in place:
    that is modelled with the page, where an array enters the store
    ([App.notify]). *)
Record t := mk {
  state : State;
  retired : list State;
  listeners : list nat
}.

Definition heap (st : t) : list State := retired st ++ [state st].
Definition address (st : t) : nat := length (retired st).

(** [constructor()] *)
Definition create : t :=
  mk (mkState None [] (mkImage None None 0 0 "pending") (mkStats 0 0 0 0) false)
     [] [].

Definition getState (st : t) : State := state st.

Definition notify (st : t) : list (Event State) :=
  map (fun listener => Deliver listener (state st)) (listeners st).

Definition setState (newState : StatePatch) (st : t) : t * list (Event State) :=
  let st' := mk (spreadState (state st) newState)
                (retired st ++ [state st]) (listeners st) in
  (st', notify st').

Definition updateDataset (datasetName : string) : t -> t * list (Event State) :=
  setState (mkStatePatch (Some (Some datasetName)) None None None None).

Definition updateImage (imageInfo : ImagePatch) (st : t) : t * list (Event State) :=
  setState (mkStatePatch None None
              (Some (spreadImage (image (state st)) imageInfo)) None None) st.

Definition updateStats (stats : StatsPatch) (st : t) : t * list (Event State) :=
  setState (mkStatePatch None None None
              (Some (spreadStats (Store.stats (state st)) stats)) None) st.

Definition setLoading (loading : bool) : t -> t * list (Event State) :=
  setState (mkStatePatch None None None None (Some loading)).

(** [new] is the field of [{ ...old, ...patch }]: the value the patch gives
    it when the patch mentions it, the old value otherwise. *)
Definition merged {A} (old : A) (patch : option A) (new : A) : Prop :=
  match patch with
  | Some v => new = v
  | None => new = old
  end.

(** [this.state] of [st'] is an object allocated after those of [st]:
    every object of the old heap is still there, unmodified, and the
    address of [this.state] is a new one. *)
Definition replaced (st st' : t) : Prop :=
  address st' = length (heap st) /\
  forall a, (a < length (heap st))%nat ->
            nth_error (heap st') a = nth_error (heap st) a.

(** Every listener of [st] was called once, in order, with [this.state]. *)
Definition notified (st' : t) (evs : list (Event State)) : Prop :=
  evs = map (fun listener => Deliver listener (state st')) (listeners st').

Definition subscribe (listener : nat) (st : t) : t :=
  if existsb (Nat.eqb listener) (listeners st) then st
  else mk (state st) (retired st) (listeners st ++ [listener]).

Definition unsubscribe (listener : nat) (st : t) : t :=
  mk (state st) (retired st)
     (filter (fun l => negb (Nat.eqb listener l)) (listeners st)).

End Store.

(** ** [ui.js]: the statistics pills *)

Module Ui.

(** The four DOM nodes [updateStats] writes to. *)
Record Dom := mkDom {
  statWm : string;                 (* elements.statWm.textContent *)
  statNwm : string;                (* elements.statNwm.textContent *)
  statPillWm : list string;        (* elements.statPillWm.classList *)
  statPillNwm : list string        (* elements.statPillNwm.classList *)
}.

(** [classList.add(c)] and [classList.remove(c)] *)
Definition classList_add (c : string) (l : list string) : list string :=
  if existsb (String.eqb c) l then l else l ++ [c].

Definition classList_remove (c : string) (l : list string) : list string :=
  filter (fun x => negb (String.eqb c x)) l.

Definition contains (c : string) (l : list string) : bool :=
  existsb (String.eqb c) l.

Definition updateStats (stats : Store.Stats) (dom : Dom) : Dom :=
  let watermarked := Store.watermarked stats in
  let noWatermarked := Store.noWatermarked stats in
  let targetWatermarked := Store.targetWatermarked stats in
  let targetNoWatermarked := Store.targetNoWatermarked stats in
  mkDom (show_Z watermarked ++ "/" ++ show_Z targetWatermarked)
        (show_Z noWatermarked ++ "/" ++ show_Z targetNoWatermarked)
        (if (targetWatermarked >? 0) && (watermarked >=? targetWatermarked)
         then classList_add "complete" (statPillWm dom)
         else classList_remove "complete" (statPillWm dom))
        (if (targetNoWatermarked >? 0) && (noWatermarked >=? targetNoWatermarked)
         then classList_add "complete" (statPillNwm dom)
         else classList_remove "complete" (statPillNwm dom)).

(** *** The image viewer *)

(** [s.split(re)] for a regular expression [re] that matches exactly one
    character, those with [sep]: the pieces between the separators, empty
    ones included.  A string of the model is a sequence of bytes; the
    separators used here are ASCII, so the pieces are those of the
    JavaScript string. *)
Fixpoint split (sep : Ascii.ascii -> bool) (s : string) : list string :=
  match s with
  | EmptyString => [EmptyString]
  | String c s' =>
      if sep c then EmptyString :: split sep s'
      else match split sep s' with
           | piece :: rest => String c piece :: rest
           | [] => [String c EmptyString]
           end
  end.

(** The character class [[/\\]]. *)
Definition is_slash (c : Ascii.ascii) : bool :=
  Ascii.eqb c "/"%char || Ascii.eqb c "\"%char.

(** [path.split(/[/\\]/).pop()] *)
Definition basename (path : string) : string :=
  last (split is_slash path) EmptyString.

(** No character of [s] is a separator. *)
Fixpoint free_of (sep : Ascii.ascii -> bool) (s : string) : Prop :=
  match s with
  | EmptyString => True
  | String c s' => sep c = false /\ free_of sep s'
  end.

(** The nodes [updateImageDisplay] writes to. *)
Record Viewer := mkViewer {
  counterCurrent : string;          (* #image-counter .current  textContent *)
  counterTotal : string;            (* #image-counter .total  textContent *)
  currentImageName : string;        (* #current-image-name  textContent *)
  mainImage_src : string;           (* #main-image  src *)
  mainImage : list string;          (* #main-image  classList *)
  mainImage_transform : string;     (* #main-image  style.transform *)
  emptyState : list string          (* #empty-state  classList *)
}.

(** [updateImageDisplay(imageState)].  With pixels, [resetZoom] sets the
    transform of the image to the one of scale 1 at the origin. *)
Definition updateImageDisplay (imageState : Store.Image) (v : Viewer) : Viewer :=
  let data := Store.data imageState in
  let path := Store.path imageState in
  let index := Store.index imageState in
  let total := Store.total imageState in
  let current := if total >? 0 then show_Z (index + 1) else show_Z 0 in
  let name := match path with
              | None | Some EmptyString => "-"
              | Some path => basename path
              end in
  match data with
  | None | Some EmptyString =>
      mkViewer current (show_Z total) name (mainImage_src v)
               (classList_add "hidden" (mainImage v))
               (mainImage_transform v)
               (if Z.eqb total 0 then classList_remove "hidden" (emptyState v)
                else emptyState v)
  | Some data =>
      mkViewer current (show_Z total) name ("data:image/jpeg;base64," ++ data)
               (classList_remove "hidden" (mainImage v))
               "translate(0px, 0px) scale(1)"
               (classList_add "hidden" (emptyState v))
  end.

(** *** The sidebar *)

(** The comparator of [renderDatasetList]: a negative number puts [a]
    first. *)
Definition by_priority (a b : Dataset.t) : Z :=
  or0 (Dataset.priority b) - or0 (Dataset.priority a).

(** [datasets.sort(compare)].  The language prescribes a stable sort; it is
    written here as an insertion sort, the outcome of a stable sort under
    this comparator being the same for every algorithm. *)
Fixpoint insert (compare : Dataset.t -> Dataset.t -> Z) (x : Dataset.t)
         (l : list Dataset.t) : list Dataset.t :=
  match l with
  | [] => [x]
  | y :: l' => if Z.leb (compare x y) 0 then x :: y :: l'
               else y :: insert compare x l'
  end.

Fixpoint sort (compare : Dataset.t -> Dataset.t -> Z) (l : list Dataset.t)
  : list Dataset.t :=
  match l with
  | [] => []
  | x :: l' => insert compare x (sort compare l')
  end.

(** One entry of the sidebar: its class, the name it shows, and the name
    it sends with the [dataset-select] event when it is clicked. *)
Record Entry := mkEntry {
  className : string;
  label : string;
  onclick : string
}.

(** What [renderDatasetList] leaves in the list node. *)
Inductive Sidebar : Type :=
| NoDatasets                      (* the note that there is no dataset yet *)
| Entries (es : list Entry).

Definition entry (currentName : option string) (dataset : Dataset.t) : Entry :=
  mkEntry ("dataset-item "
           ++ (if strict_eq currentName (Dataset.name dataset) then "active" else ""))
          (Dataset.name dataset) (Dataset.name dataset).

(** [renderDatasetList(datasets, currentName)]: the array as the call
    leaves it (it is sorted in place) and the list node. *)
Definition renderDatasetList (datasets : list Dataset.t) (currentName : option string)
  : list Dataset.t * Sidebar :=
  match datasets with
  | [] => ([], NoDatasets)
  | _ => let sorted := sort by_priority datasets in
         (sorted, Entries (map (entry currentName) sorted))
  end.

End Ui.

(** ** The second [app.js]: controllers over the store *)

Module App.
Import Store.
Local Open Scope handler_scope.

Definition loading (st : Store.t) : bool := isLoading (state st).

Definition W : Type := World Store.t State.
Definition H (A : Type) : Type := M Store.t State A.

Definition api {A} (r : Req) (answer : Env -> nat -> reply A) : H A :=
  await loading r answer.

(** [store.getState()] *)
Definition getState : H State :=
  st <- get_page ;; ret (Store.getState st).

(** A call of one of the store's update methods. *)
Definition store (method : Store.t -> Store.t * list (Event State)) : H unit :=
  st <- get_page ;;
  modify_page (fun _ => fst (method st)) ;;
  emit (snd (method st)).

(** The listener that [bindEvents] subscribes, known by this number:
      (state) => {
        ui.renderDatasetList(state.datasets, state.currentDataset);
        ui.updateImageDisplay(state.image);
        ui.updateStats(state.stats);
      }
    The first call sorts the array [state.datasets] in place, and that
    array is the one the state object of the store refers to; the other
    two calls only read what they are given. *)
Definition subscriber : nat := 0%nat.

(** The state object once [subscriber] has run on it. *)
Definition rendered (s : State) : State :=
  mkState (currentDataset s)
          (fst (Ui.renderDatasetList (datasets s) (currentDataset s)))
          (image s) (stats s) (isLoading s).

(** [this.listeners.forEach(listener => listener(this.state))] with the
    listener of the page run: each listener is handed the state object as
    the listeners called before it left it.  The result is the object
    after the last call, and the calls. *)
Fixpoint notify (s : State) (ls : list nat) : State * list (Event State) :=
  match ls with
  | [] => (s, [])
  | listener :: ls' =>
      let s' := if Nat.eqb listener subscriber then rendered s else s in
      (fst (notify s' ls'), Deliver listener s :: snd (notify s' ls'))
  end.

(** [store.setState({ datasets: types })] on the page.  [this.state]
    becomes a new object that refers to the array [types]; the listeners
    are then called with it, and the sort of [subscriber] is a write to
    that array, hence to the state of the store, which stays the same
    object.

    The other updates go through [store] with the methods of [Store] as
    they are written: they pass on the array that is in the state
    already.  On a [settled] page that array is sorted, the sort of the
    listener leaves it as it is, and [notify] is the [notify] of the
    store ([notify_sorted] below); [refreshDatasets] settles the page and
    every handler keeps it settled ([settled_handlers]). *)
Definition setDatasets (types : list Dataset.t) (st : Store.t)
  : Store.t * list (Event State) :=
  let st' := fst (setState (mkStatePatch None (Some types) None None None) st) in
  (mk (fst (notify (state st') (listeners st'))) (retired st') (listeners st'),
   snd (notify (state st') (listeners st'))).

Definition refreshDatasets : H unit :=
  try_catch
    (types <- api (GetTypes true) (fun env n => Remote.getTypes env n true) ;;
     store (setDatasets types))
    (fun _ => toast "无法加载数据类型" "error").

Definition loadCurrentImage : H unit :=
  s <- getState ;;
  match currentDataset s with
  | None | Some EmptyString => ret tt            (* if (!dataset) return; *)
  | Some dataset =>
      store (setLoading true) ;;
      finally
        (try_catch
           (info <- api (GetCurrentImage dataset)
                        (fun env n => Remote.getCurrentImage env n dataset) ;;
            imageData <- api (GetImageBase64 dataset (ImageInfo.index info))
                             (fun env n => Remote.getImageBase64 env n dataset
                                             (ImageInfo.index info)) ;;
            store (updateImage
                     (mkImagePatch (Some (Some imageData))
                                   (Some (Some (ImageInfo.path info)))
                                   (Some (ImageInfo.index info))
                                   None
                                   (Some (ImageInfo.status info)))))
           (fun err =>
              ui (ConsoleError err) ;;
              store (updateImage
                       (mkImagePatch (Some None) (Some None) None None None))))
        (store (setLoading false))
  end.

Definition updateProgress : H unit :=
  s <- getState ;;
  match currentDataset s with
  | None | Some EmptyString => ret tt
  | Some dataset =>
      try_catch
        (progress <- api (GetProgress dataset)
                         (fun env n => Remote.getProgress env n dataset) ;;
         store (updateStats
                  (mkStatsPatch (Some (Progress.watermarked_count progress))
                                (Some (Progress.non_watermarked_count progress))
                                None None)) ;;
         store (updateImage
                  (mkImagePatch None None None
                                (Some (Progress.total_images progress)) None)))
        (fun _ => ret tt)                        (* silent fail for stats *)
  end.

Definition selectDataset (name : string) : H unit :=
  s <- getState ;;
  if strict_eq (currentDataset s) name then ret tt
  else
    store (updateDataset name) ;;
    ui (SetHeader name) ;;
    s1 <- getState ;;
    match find (fun d => String.eqb (Dataset.name d) name) (datasets s1) with
    | Some {| Dataset.target_count := Some target_count |} =>
        store (updateStats
                 (mkStatsPatch None None
                    (Some (or0 (Counts.watermarked target_count)))
                    (Some (or0 (Counts.non_watermarked target_count)))))
    | _ => ret tt
    end ;;
    loadCurrentImage ;;
    updateProgress.

Definition handleAnnotation (label : Z) : H unit :=
  let btnId := if Z.eqb label 1 then "btn-watermarked" else "btn-no-watermarked" in
  ui (HighlightButton btnId) ;;
  state <- getState ;;
  match currentDataset state, path (image state) with
  | Some (String _ _ as dataset), Some (String _ _ as imagePath) =>
      try_catch
        (api (CreateAnnotation imagePath label dataset)
             (fun env n => Remote.createAnnotation env n imagePath label dataset) ;;
         let labelText := if Z.eqb label 1 then "有水印" else "无水印" in
         toast ("已标记: " ++ labelText) (if Z.eqb label 1 then "error" else "success") ;;
         api (NavigateNext dataset) (fun env n => Remote.navigateNext env n dataset) ;;
         loadCurrentImage ;;
         updateProgress)
        (fun err => toast ("操作失败: " ++ err) "error")
  | _, _ => toast "请先选择数据类型" "warning"
  end.

Definition handleSkip : H unit :=
  ui (HighlightButton "btn-skip") ;;
  state <- getState ;;
  match currentDataset state, path (image state) with
  | Some (String _ _ as dataset), Some (String _ _ as imagePath) =>
      try_catch
        (api (SkipImage imagePath dataset)
             (fun env n => Remote.skipImage env n imagePath dataset) ;;
         toast "已跳过" "info" ;;
         api (NavigateNext dataset) (fun env n => Remote.navigateNext env n dataset) ;;
         loadCurrentImage)
        (fun err => toast ("跳过失败: " ++ err) "error")
  | _, _ => ret tt
  end.

Definition handleDelete : H unit :=
  state <- getState ;;
  match currentDataset state, path (image state) with
  | Some (String _ _ as dataset), Some (String _ _ as imagePath) =>
      ok <- ask "确定要从磁盘删除这张图片吗？此操作不可恢复。" ;;
      if negb ok then ret tt
      else
        try_catch
          (api (DeleteImage dataset imagePath)
               (fun env n => Remote.deleteImage env n dataset imagePath) ;;
           toast "图片已删除" "success" ;;
           loadCurrentImage ;;
           updateProgress)
          (fun err => toast ("删除失败: " ++ err) "error")
  | _, _ => ret tt
  end.

Definition handleNavigate (direction : string) : H unit :=
  s <- getState ;;
  match currentDataset s with
  | None | Some EmptyString => ret tt
  | Some dataset =>
      try_catch
        ((if String.eqb direction "next"
          then api (NavigateNext dataset) (fun env n => Remote.navigateNext env n dataset)
          else api (NavigatePrev dataset) (fun env n => Remote.navigatePrev env n dataset)) ;;
         loadCurrentImage)
        (fun _ => toast "无法导航" "error")
  end.

Definition handleUndo : H unit :=
  try_catch
    (res <- api Undo Remote.undo ;;
     match Answer.success res with
     | Some true =>
         toast "撤销成功" "info" ;;
         loadCurrentImage ;;
         updateProgress
     | _ => toast (Answer.message res) "warning"
     end)
    (fun _ => toast "撤销失败" "error").

(** No load is in flight. *)
Definition idle (st : Store.t) : Prop := isLoading (state st) = false.

(** The listener of the page is subscribed, and the array [datasets] is in
    the order that listener gives it: by descending priority. *)
Definition settled (st : Store.t) : Prop :=
  In subscriber (listeners st) /\
  Sorted (fun a b => or0 (Dataset.priority a) >= or0 (Dataset.priority b))
         (datasets (state st)).

(** What the service answers to the two fetches of [loadCurrentImage] when
    the first of them is interaction number [n]: the metadata and the
    pixels, or the first rejection. *)
Definition fetched (env : Env) (n : nat) (dataset : string)
  : reply (ImageInfo.t * string) :=
  match Remote.getCurrentImage env n dataset with
  | Rejected e => Rejected e
  | Resolved info =>
      match Remote.getImageBase64 env (S n) dataset (ImageInfo.index info) with
      | Rejected e => Rejected e
      | Resolved base64 => Resolved (info, base64)
      end
  end.

(** The record served by [info] and [base64], next to the old [total]. *)
Definition served (old : Image) (info : ImageInfo.t) (base64 : string) : Image :=
  mkImage (Some base64) (Some (ImageInfo.path info)) (ImageInfo.index info)
          (total old) (ImageInfo.status info).

(** The record with its pixels and its path set to [null]. *)
Definition blank (old : Image) : Image :=
  mkImage None None (index old) (total old) (status old).

End App.

(** * The index-based front end (the first [app.js]) *)

Module Legacy.
Local Open Scope handler_scope.

(** The module-level [state] object. *)
Record State := mkState {
  currentType : option string;
  currentIndex : Z;
  currentImage : option ImageInfo.t;
  types : list Dataset.t;
  isLoading : bool
}.

(** The target statistics panel of the document. *)
Record StatsPanel := mkPanel {
  display : string;                   (* #target-stats  style.display *)
  stat_watermarked : string;          (* #stat-watermarked  textContent *)
  stat_watermarked_class : string;    (* #stat-watermarked  className *)
  stat_no_watermark : string;         (* #stat-no-watermark  textContent *)
  stat_no_watermark_class : string    (* #stat-no-watermark  className *)
}.

Record Page := mkPage { state : State; panel : StatsPanel }.

Definition loading (p : Page) : bool := isLoading (state p).

Definition W : Type := World Page unit.
Definition H (A : Type) : Type := M Page unit A.

Definition api {A} (r : Req) (answer : Env -> nat -> reply A) : H A :=
  await loading r answer.

Definition getState : H State := p <- get_page ;; ret (state p).

Definition assign (f : State -> State) : H unit :=
  modify_page (fun p => mkPage (f (state p)) (panel p)).

Definition set_currentType v s :=
  mkState v (currentIndex s) (currentImage s) (types s) (isLoading s).
Definition set_currentIndex v s :=
  mkState (currentType s) v (currentImage s) (types s) (isLoading s).
Definition set_currentImage v s :=
  mkState (currentType s) (currentIndex s) v (types s) (isLoading s).
Definition set_types v s :=
  mkState (currentType s) (currentIndex s) (currentImage s) v (isLoading s).
Definition set_isLoading v s :=
  mkState (currentType s) (currentIndex s) (currentImage s) (types s) v.

(** [updateTargetStats(typeName)] on the list [state.types] *)
Definition updateTargetStats (typeName : string) (types : list Dataset.t)
           (p : StatsPanel) : StatsPanel :=
  match find (fun t => String.eqb (Dataset.name t) typeName) types with
  | None =>
      mkPanel "none" (stat_watermarked p) (stat_watermarked_class p)
              (stat_no_watermark p) (stat_no_watermark_class p)
  | Some type =>
      let target := match Dataset.target_count type with
                    | Some c => c
                    | None => Counts.mk None None
                    end in
      let current := match Dataset.current_count type with
                     | Some c => c
                     | None => Counts.mk None None
                     end in
      let hasTarget := or0 (Counts.watermarked target)
                       + or0 (Counts.non_watermarked target) >? 0 in
      if negb hasTarget then
        mkPanel "none" (stat_watermarked p) (stat_watermarked_class p)
                (stat_no_watermark p) (stat_no_watermark_class p)
      else
        let wmCurrent := or0 (Counts.watermarked current) in
        let wmTarget := or0 (Counts.watermarked target) in
        let wmComplete := (wmTarget >? 0) && (wmCurrent >=? wmTarget) in
        let nwmCurrent := or0 (Counts.non_watermarked current) in
        let nwmTarget := or0 (Counts.non_watermarked target) in
        let nwmComplete := (nwmTarget >? 0) && (nwmCurrent >=? nwmTarget) in
        mkPanel "flex"
                (show_Z wmCurrent ++ "/" ++ show_Z wmTarget)
                ("stat-value " ++ (if wmComplete then "complete" else ""))
                (show_Z nwmCurrent ++ "/" ++ show_Z nwmTarget)
                ("stat-value " ++ (if nwmComplete then "complete" else ""))
  end.

Definition loadTypes (skipScan : bool) : H unit :=
  try_catch
    (ts <- api (GetTypes skipScan) (fun env n => Remote.getTypes env n skipScan) ;;
     assign (set_types ts) ;;
     s <- getState ;;
     ui (RenderTypeList (types s) (currentType s)) ;;
     ui (RenderTypeSelector (types s) (currentType s)))
    (fun err => toast ("加载数据类型失败: " ++ err) "error").

Definition loadCurrentImage : H unit :=
  s <- getState ;;
  match currentType s with
  | None | Some EmptyString => ui HideImage
  | Some type =>
      if isLoading s then ret tt
      else
        assign (set_isLoading true) ;;
        ui ShowLoading ;;
        finally
          (try_catch
             (imageInfo <- api (GetCurrentImage type)
                               (fun env n => Remote.getCurrentImage env n type) ;;
              assign (set_currentImage (Some imageInfo)) ;;
              assign (set_currentIndex (ImageInfo.index imageInfo)) ;;
              progress <- api (GetProgress type)
                              (fun env n => Remote.getProgress env n type) ;;
              ui (UpdateProgress (Progress.annotated_count progress)
                                 (Progress.total_images progress)) ;;
              imageData <- api (GetImageBase64 type (ImageInfo.index imageInfo))
                               (fun env n => Remote.getImageBase64 env n type
                                               (ImageInfo.index imageInfo)) ;;
              ui (ShowImage imageData) ;;
              ui (UpdateStatusBadge (ImageInfo.status imageInfo)) ;;
              ui (UpdateFilePath (Some (ImageInfo.path imageInfo))) ;;
              ui (SetTextContent "current-index"
                                 (show_Z (ImageInfo.index imageInfo + 1))) ;;
              ui (SetTextContent "total-images"
                                 (show_Z (Progress.total_images progress))))
             (fun err =>
                toast ("加载图片失败: " ++ err) "error" ;;
                ui HideImage))
          (assign (set_isLoading false))
  end.

Definition loadImageByIndex (index : Z) : H unit :=
  s <- getState ;;
  match currentType s with
  | None | Some EmptyString => ret tt
  | Some type =>
      if isLoading s then ret tt
      else
        assign (set_isLoading true) ;;
        ui ShowLoading ;;
        finally
          (try_catch
             (imageInfo <- api (GetImageByIndex type index)
                               (fun env n => Remote.getImageByIndex env n type index) ;;
              assign (set_currentImage (Some imageInfo)) ;;
              assign (set_currentIndex (ImageInfo.index imageInfo)) ;;
              imageData <- api (GetImageBase64 type index)
                               (fun env n => Remote.getImageBase64 env n type index) ;;
              ui (ShowImage imageData) ;;
              ui (UpdateStatusBadge (ImageInfo.status imageInfo)) ;;
              ui (UpdateFilePath (Some (ImageInfo.path imageInfo))) ;;
              progress <- api (GetProgress type)
                              (fun env n => Remote.getProgress env n type) ;;
              ui (UpdateProgress (Progress.annotated_count progress)
                                 (Progress.total_images progress)) ;;
              ui (SetTextContent "current-index" (show_Z (index + 1))))
             (fun err => toast ("加载失败: " ++ err) "error"))
          (assign (set_isLoading false))
  end.

Definition selectType (typeName : string) : H unit :=
  s <- getState ;;
  if strict_eq (currentType s) typeName then ret tt
  else
    assign (set_currentType (Some typeName)) ;;
    assign (set_currentIndex 0) ;;
    s1 <- getState ;;
    ui (RenderTypeList (types s1) (Some typeName)) ;;
    ui (RenderTypeSelector (types s1) (Some typeName)) ;;
    modify_page (fun p => mkPage (state p)
                            (updateTargetStats typeName (types (state p)) (panel p))) ;;
    loadCurrentImage.

Definition navigateNext : H unit :=
  s <- getState ;;
  match currentType s with
  | None | Some EmptyString => ret tt
  | Some type =>
      try_catch
        (result <- api (NavigateNext type) (fun env n => Remote.navigateNext env n type) ;;
         match Answer.success result with
         | Some false => toast "已经是最后一张" "info"
         | _ => loadImageByIndex (Answer.index result)
         end)
        (fun err => toast ("导航失败: " ++ err) "error")
  end.

Definition navigatePrev : H unit :=
  s <- getState ;;
  match currentType s with
  | None | Some EmptyString => ret tt
  | Some type =>
      try_catch
        (result <- api (NavigatePrev type) (fun env n => Remote.navigatePrev env n type) ;;
         match Answer.success result with
         | Some false => toast "已经是第一张" "info"
         | _ => loadImageByIndex (Answer.index result)
         end)
        (fun err => toast ("导航失败: " ++ err) "error")
  end.

Definition annotate (label : Z) : H unit :=
  s <- getState ;;
  match currentType s, currentImage s with
  | Some (String _ _ as type), Some image =>
      try_catch
        (api (CreateAnnotation (ImageInfo.path image) label type)
             (fun env n => Remote.createAnnotation env n (ImageInfo.path image) label type) ;;
         toast (if Z.eqb label 1 then "已标记为有水印" else "已标记为无水印") "success" ;;
         ui (UpdateStatusBadge (if Z.eqb label 1 then "watermarked" else "no_watermark")) ;;
         navigateNext ;;
         loadTypes false)
        (fun err => toast ("标注失败: " ++ err) "error")
  | _, _ => toast "请先选择数据类型和图片" "warning"
  end.

Definition skipImage : H unit :=
  s <- getState ;;
  match currentType s, currentImage s with
  | Some (String _ _ as type), Some image =>
      try_catch
        (api (SkipImage (ImageInfo.path image) type)
             (fun env n => Remote.skipImage env n (ImageInfo.path image) type) ;;
         toast "已跳过" "info" ;;
         ui (UpdateStatusBadge "skipped") ;;
         navigateNext)
        (fun err => toast ("操作失败: " ++ err) "error")
  | _, _ => toast "请先选择数据类型和图片" "warning"
  end.

Definition undoAction : H unit :=
  try_catch
    (result <- api Undo Remote.undo ;;
     match Answer.success result with
     | Some true =>
         toast "已撤销" "info" ;;
         loadCurrentImage ;;
         loadTypes false
     | _ => toast (Answer.message result) "warning"
     end)
    (fun err => toast ("撤销失败: " ++ err) "error").

Definition redoAction : H unit :=
  try_catch
    (result <- api Redo Remote.redo ;;
     match Answer.success result with
     | Some true =>
         toast "已重做" "info" ;;
         loadCurrentImage ;;
         loadTypes false
     | _ => toast (Answer.message result) "warning"
     end)
    (fun err => toast ("重做失败: " ++ err) "error").

(** No load is in flight. *)
Definition idle (p : Page) : Prop := isLoading (state p) = false.

End Legacy.

(** * Keyboard shortcuts and the remaining views *)

(** [switch (key) { case k: body ... }] where every body ends with [break]:
    the body of the first case labelled [key], if there is one.  Labels
    that share a body are listed one by one. *)
Fixpoint switch {A} (key : string) (cases : list (string * A)) : option A :=
  match cases with
  | [] => None
  | (k, body) :: rest => if String.eqb key k then Some body else switch key rest
  end.

(** ** The [keydown] listener of the store-based front end *)

Module Keys.

(** The handler a key press ends in. *)
Inductive Command : Type :=
| HandleAnnotation (label : Z)
| HandleSkip
| HandleDelete
| HandleNavigate (direction : string)
| HandleUndo
| HandleSave.

(** The listener registered by [bindEvents].  [tagName] is
    [e.target.tagName] and [key] is [e.key.toLowerCase()]. *)
Definition keydown (tagName key : string) (ctrlKey metaKey : bool) : option Command :=
  if String.eqb tagName "INPUT" || String.eqb tagName "TEXTAREA" then None
  else
    match switch key
            [ ("1", Some (HandleAnnotation 1));
              ("w", Some (HandleAnnotation 1));
              ("a", Some (HandleAnnotation 1));
              ("2", Some (HandleAnnotation 0));
              ("n", Some (HandleAnnotation 0));
              ("d", Some (HandleAnnotation 0));
              ("s", Some HandleSkip);
              ("x", Some HandleDelete);
              ("delete", Some HandleDelete);
              ("arrowright", Some (HandleNavigate "next"));
              ("arrowleft", Some (HandleNavigate "prev"));
              ("z", if ctrlKey || metaKey then Some HandleUndo else None);
              ("s", if ctrlKey || metaKey then Some HandleSave else None) ]
    with
    | Some body => body
    | None => None
    end.

(** The handlers of the commands that have one in the model. *)
Definition perform (c : Command) : option (App.H unit) :=
  match c with
  | HandleAnnotation label => Some (App.handleAnnotation label)
  | HandleSkip => Some App.handleSkip
  | HandleDelete => Some App.handleDelete
  | HandleNavigate direction => Some (App.handleNavigate direction)
  | HandleUndo => Some App.handleUndo
  | HandleSave => None
  end.

End Keys.

(** ** [keyboard.js]: the shortcuts of the index-based front end *)

Module Keyboard.

Inductive Command : Type :=
| UndoAction
| RedoAction
| SaveProgress
| Annotate (label : Z)
| SkipImage
| DeleteCurrentImage
| NavigatePrev
| NavigateNext
| ToggleFullscreen.

(** [handleKeyDown(event)].  [inField] is
    [event.target.matches('input, textarea, select')] and [key] is
    [event.key.toLowerCase()].  The result is the function called, if any,
    and whether [event.preventDefault()] was called. *)
Definition handleKeyDown (inField : bool) (key : string) (ctrlKey metaKey : bool)
  : option Command * bool :=
  if inField then (None, false)
  else
    let ctrlOrMeta := ctrlKey || metaKey in
    if ctrlOrMeta then
      match switch key
              [ ("z", UndoAction); ("y", RedoAction); ("s", SaveProgress) ]
      with
      | Some c => (Some c, true)
      | None => (None, false)
      end
    else
      match switch key
              [ ("1", Annotate 1); ("w", Annotate 1);
                ("2", Annotate 0); ("n", Annotate 0);
                ("s", SkipImage);
                ("x", DeleteCurrentImage); ("delete", DeleteCurrentImage);
                ("a", NavigatePrev); ("arrowleft", NavigatePrev);
                ("d", NavigateNext); ("arrowright", NavigateNext);
                ("f11", ToggleFullscreen) ]
      with
      | Some c => (Some c, true)
      | None => (None, false)
      end.

End Keyboard.

(** ** The type list of the index-based front end *)

Module LegacyUi.

(** One [li] of the type list, as the values put into its template. *)
Record TypeItem := mkTypeItem {
  className : string;        (* class of the li *)
  checkbox : string;         (* text of .checkbox *)
  name : string;             (* text of .name *)
  countClass : string;       (* class of the count span *)
  count : string;            (* text of the count span *)
  onclick : string           (* argument of selectType in onclick *)
}.

Definition typeItem (activeType : option string) (type : Dataset.t) : TypeItem :=
  let target := match Dataset.target_count type with
                | Some c => c
                | None => Counts.mk None None
                end in
  let current := match Dataset.current_count type with
                 | Some c => c
                 | None => Counts.mk None None
                 end in
  let targetTotal := or0 (Counts.watermarked target)
                     + or0 (Counts.non_watermarked target) in
  let currentTotal := or0 (Counts.watermarked current)
                      + or0 (Counts.non_watermarked current) in
  let hasTarget := targetTotal >? 0 in
  let isComplete := hasTarget && (currentTotal >=? targetTotal) in
  let progressText :=
    if hasTarget then show_Z currentTotal ++ "/" ++ show_Z targetTotal
    else show_Z (Dataset.annotated_count type) ++ "/"
         ++ show_Z (Dataset.total_images type) in
  let statusIcon := if isComplete then "✅" else "" in
  let active := strict_eq activeType (Dataset.name type) in
  mkTypeItem ("type-item " ++ (if active then "active" else "") ++ " "
              ++ (if isComplete then "complete" else ""))
             (if active then "✓" else "")
             (Dataset.name type ++ " " ++ statusIcon)
             ("count " ++ (if isComplete then "complete" else ""))
             progressText
             (Dataset.name type).

(** [renderTypeList(types, activeType)] *)
Definition renderTypeList (types : list Dataset.t) (activeType : option string)
  : list TypeItem :=
  map (typeItem activeType) types.

End LegacyUi.

(** ** Handlers that cannot end with an error *)

Section Endings.
Variables Page Snap : Type.

(** No run of [m] ends with a thrown error. *)
Definition returns {A} (m : M Page Snap A) : Prop :=
  forall env w, exists a, fst (m env w) = Return a.

(** The snapshots the listener [who] was called with, in order. *)
Fixpoint received (who : nat) (l : list (Event Snap)) : list Snap :=
  match l with
  | [] => []
  | Deliver listener s :: l' =>
      if Nat.eqb listener who then s :: received who l' else received who l'
  | _ :: l' => received who l'
  end.

End Endings.

(** * Concrete pages and environments *)

Module Fixtures.
Import Store.

Definition products : Dataset.t :=
  Dataset.mk "产品图"
             (Some (Counts.mk (Some 10) (Some 10)))
             (Some (Counts.mk (Some 10) (Some 3)))
             (Some 1) 13 40.

Definition dataset_A : Dataset.t :=
  Dataset.mk "A" (Some (Counts.mk (Some 5) (Some 5))) None (Some 2) 4 12.

Definition dataset_B : Dataset.t :=
  Dataset.mk "B" None None None 0 7.

(** The fourth image of dataset A is on display. *)
Definition image_A : Image :=
  mkImage (Some "QUFBQQ==") (Some "A/0004.jpg") 3 12 "watermarked".

Definition state_A (busy : bool) : State :=
  mkState (Some "A") [dataset_A; dataset_B] image_A (mkStats 3 1 5 5) busy.

(** A store showing dataset A, with one subscriber. *)
Definition store_A (busy : bool) : Store.t := mk (state_A busy) [] [0%nat].

Definition world_A (busy : bool) : App.W := mkWorld (store_A busy) [] 0.

(** A fresh store with one subscriber: nothing selected. *)
Definition world_0 : App.W := mkWorld (subscribe 0 create) [] 0.

(** The same situations in the index-based front end. *)
Definition info_A : ImageInfo.t := ImageInfo.mk "A/0004.jpg" 3 "watermarked".

Definition panel_0 : Legacy.StatsPanel := Legacy.mkPanel "none" "0/0" "stat-value" "0/0" "stat-value".

Definition legacy_A (busy : bool) : Legacy.W :=
  mkWorld (Legacy.mkPage
             (Legacy.mkState (Some "A") 3 (Some info_A) [dataset_A; dataset_B] busy)
             panel_0) [] 0.

Definition legacy_0 : Legacy.W :=
  mkWorld (Legacy.mkPage (Legacy.mkState None 0 None [] false) panel_0) [] 0.

(** A service that answers every request: the cursor of every dataset is
    on its first image. *)
Definition first_image (dataset : string) : ImageInfo.t :=
  ImageInfo.mk (dataset ++ "/0001.jpg") 0 "pending".

Definition online : Env :=
  Remote.mkEnv
    (fun _ _ => Resolved [dataset_A; dataset_B])
    (fun _ dataset => Resolved (first_image dataset))
    (fun _ dataset index => Resolved (ImageInfo.mk (dataset ++ "/n.jpg") index "pending"))
    (fun _ _ _ => Resolved "Qk1CTQ==")
    (fun _ _ _ => Resolved tt)
    (fun _ _ _ _ => Resolved tt)
    (fun _ _ _ => Resolved tt)
    (fun _ => Resolved (Answer.mk (Some true) 0 "ok"))
    (fun _ => Resolved (Answer.mk (Some true) 0 "ok"))
    (fun _ _ => Resolved (Progress.mk 7 0 0 0))
    (fun _ _ => Resolved (Answer.mk (Some true) 1 "ok"))
    (fun _ _ => Resolved (Answer.mk (Some true) 0 "ok"))
    (fun _ _ => true).

(** As [online], but the list of types comes in another order than that
    of the priorities. *)
Definition unordered : Env :=
  Remote.mkEnv
    (fun _ _ => Resolved [dataset_B; dataset_A])
    (Remote.getCurrentImage online) (Remote.getImageByIndex online)
    (Remote.getImageBase64 online)
    (Remote.deleteImage online) (Remote.createAnnotation online)
    (Remote.skipImage online) (Remote.undo online) (Remote.redo online)
    (Remote.getProgress online) (Remote.navigateNext online)
    (Remote.navigatePrev online) (Remote.confirm online).

(** A service that is unreachable: every request is rejected. *)
Definition offline : Env :=
  Remote.mkEnv
    (fun _ _ => Rejected "Network Error")
    (fun _ _ => Rejected "Network Error")
    (fun _ _ _ => Rejected "Network Error")
    (fun _ _ _ => Rejected "Network Error")
    (fun _ _ _ => Rejected "Network Error")
    (fun _ _ _ _ => Rejected "Network Error")
    (fun _ _ _ => Rejected "Network Error")
    (fun _ => Rejected "Network Error")
    (fun _ => Rejected "Network Error")
    (fun _ _ => Rejected "Network Error")
    (fun _ _ => Rejected "Network Error")
    (fun _ _ => Rejected "Network Error")
    (fun _ _ => true).

(** The cursor of dataset A is on the image on display, which is the last
    one: navigation answers [success: false], the undo stack is empty, and
    everything else is served. *)
Definition at_the_end : Env :=
  Remote.mkEnv
    (fun _ _ => Resolved [dataset_A; dataset_B])
    (fun _ _ => Resolved info_A)
    (fun _ _ index => Resolved info_A)
    (fun _ _ _ => Resolved "QUFBQQ==")
    (fun _ _ _ => Resolved tt)
    (fun _ _ _ _ => Resolved tt)
    (fun _ _ _ => Resolved tt)
    (fun _ => Resolved (Answer.mk (Some false) 0 "nothing to undo"))
    (fun _ => Resolved (Answer.mk (Some false) 0 "nothing to redo"))
    (fun _ _ => Resolved (Progress.mk 12 4 3 1))
    (fun _ _ => Resolved (Answer.mk (Some false) 0 "已经是最后一张"))
    (fun _ _ => Resolved (Answer.mk (Some false) 0 "已经是第一张"))
    (fun _ _ => true).

(** The metadata of the current image is served, its pixels are not. *)
Definition pixels_missing : Env :=
  Remote.mkEnv
    (Remote.getTypes online) (Remote.getCurrentImage online)
    (Remote.getImageByIndex online)
    (fun _ _ _ => Rejected "Image not found")
    (Remote.deleteImage online) (Remote.createAnnotation online)
    (Remote.skipImage online) (Remote.undo online) (Remote.redo online)
    (Remote.getProgress online) (Remote.navigateNext online)
    (Remote.navigatePrev online) (Remote.confirm online).

(** As [at_the_end], but the file of the image on display cannot be read. *)
Definition at_the_end_unreadable : Env :=
  Remote.mkEnv
    (Remote.getTypes at_the_end) (Remote.getCurrentImage at_the_end)
    (Remote.getImageByIndex at_the_end)
    (fun _ _ _ => Rejected "Image not found")
    (Remote.deleteImage at_the_end) (Remote.createAnnotation at_the_end)
    (Remote.skipImage at_the_end) (Remote.undo at_the_end) (Remote.redo at_the_end)
    (Remote.getProgress at_the_end) (Remote.navigateNext at_the_end)
    (Remote.navigatePrev at_the_end) (Remote.confirm at_the_end).

End Fixtures.

(** * Properties *)

(** ** Logs *)

Section LogFacts.
Variables Page Snap : Type.
Implicit Types (l k : list (Event Snap)) (w : World Page Snap).

Lemma since_app w w' (evs : list (Event Snap)) :
  log w' = (log w ++ evs)%list -> since w w' = evs.
Proof.
  unfold since. intros ->.
  rewrite skipn_app, skipn_all, Nat.sub_diag. reflexivity.
Qed.

Lemma since_same w : since w w = [].
Proof. apply since_app. now rewrite app_nil_r. Qed.

Lemma requests_app l k : requests (l ++ k) = (requests l ++ requests k)%list.
Proof.
  induction l as [|[] l IH]; cbn; rewrite ?IH; reflexivity.
Qed.

Lemma toasts_app l k : toasts (l ++ k) = (toasts l ++ toasts k)%list.
Proof.
  induction l as [|[] l IH]; cbn; rewrite ?IH; reflexivity.
Qed.

Lemma snapshots_app l k : snapshots (l ++ k) = (snapshots l ++ snapshots k)%list.
Proof.
  induction l as [|[] l IH]; cbn; rewrite ?IH; reflexivity.
Qed.

Lemma issued_while_loading_app l k :
  issued_while_loading (l ++ k) = issued_while_loading l && issued_while_loading k.
Proof.
  induction l as [|[] l IH]; cbn; rewrite ?IH; auto using andb_assoc.
Qed.

(** Deliveries to listeners are neither requests nor toasts. *)
Lemma requests_deliveries (s : Snap) (ls : list nat) :
  requests (map (fun listener => Deliver listener s) ls) = [].
Proof. induction ls; cbn; auto. Qed.

Lemma toasts_deliveries (s : Snap) (ls : list nat) :
  toasts (map (fun listener => Deliver listener s) ls) = [].
Proof. induction ls; cbn; auto. Qed.

Lemma issued_while_loading_deliveries (s : Snap) (ls : list nat) :
  issued_while_loading (map (fun listener => Deliver listener s) ls) = true.
Proof. induction ls; cbn; auto. Qed.

Lemma snapshots_deliveries (s : Snap) (ls : list nat) :
  snapshots (map (fun listener => Deliver listener s) ls) = map (fun _ => s) ls.
Proof. induction ls; cbn; congruence. Qed.

End LogFacts.

(** ** Properties kept by every step of a handler *)

Section Preservation.
Variables Page Snap : Type.
Variable loading : Page -> bool.
Variable P : Page -> Prop.
Local Open Scope handler_scope.

Lemma preserves_ret A (a : A) : preserves (Snap := Snap) P (ret a).
Proof. intros env w H. exact H. Qed.

Lemma preserves_emit (es : list (Event Snap)) : preserves P (emit es).
Proof. intros env w H. exact H. Qed.

Lemma preserves_toast (message type : string) :
  preserves (Snap := Snap) P (toast message type).
Proof. apply preserves_emit. Qed.

Lemma preserves_ui (c : UiCall) : preserves (Snap := Snap) P (ui c).
Proof. apply preserves_emit. Qed.

Lemma preserves_ask (message : string) : preserves (Snap := Snap) P (ask message).
Proof. intros env w H. exact H. Qed.

Lemma preserves_await A (r : Req) (answer : Env -> nat -> reply A) :
  preserves (Snap := Snap) P (await loading r answer).
Proof.
  intros env w H. unfold await. destruct (answer env (tick w)); exact H.
Qed.

Lemma preserves_modify_page (f : Page -> Page) :
  (forall p, P p -> P (f p)) -> preserves (Snap := Snap) P (modify_page f).
Proof. intros Hf env w H. apply Hf. exact H. Qed.

Lemma preserves_get_page : preserves (Snap := Snap) P get_page.
Proof. intros env w H. exact H. Qed.

Lemma preserves_bind A B (m : M Page Snap A) (k : A -> M Page Snap B) :
  preserves P m -> (forall a, preserves P (k a)) -> preserves P (x <- m ;; k x).
Proof.
  intros Hm Hk env w H. unfold bind.
  specialize (Hm env w H). destruct (m env w) as [[a|e] w']; cbn in *.
  - apply Hk. exact Hm.
  - exact Hm.
Qed.

Lemma preserves_try_catch A (body : M Page Snap A) (handler : string -> M Page Snap A) :
  preserves P body -> (forall e, preserves P (handler e)) ->
  preserves P (try_catch body handler).
Proof.
  intros Hb Hh env w H. unfold try_catch.
  specialize (Hb env w H). destruct (body env w) as [[a|e] w']; cbn in *.
  - exact Hb.
  - apply Hh. exact Hb.
Qed.

Lemma preserves_finally A (body : M Page Snap A) (fin : M Page Snap unit) :
  preserves P body -> preserves P fin -> preserves P (finally body fin).
Proof.
  intros Hb Hf env w H. unfold finally.
  specialize (Hb env w H). destruct (body env w) as [o w']; cbn in *.
  specialize (Hf env w' Hb). destruct (fin env w') as [[[]|e] w'']; exact Hf.
Qed.

End Preservation.

Create Rewrite HintDb logs.
#[local] Hint Rewrite requests_app toasts_app snapshots_app issued_while_loading_app
  requests_deliveries toasts_deliveries issued_while_loading_deliveries
  snapshots_deliveries : logs.

(** ** The store *)

Section StoreFacts.
Import Store.

Lemma setState_replaced (p : StatePatch) (st : Store.t) :
  replaced st (fst (setState p st)).
Proof.
  unfold replaced, heap, address; cbn. split.
  - now rewrite length_app, Nat.add_comm.
  - intros a Ha. apply nth_error_app1. exact Ha.
Qed.

Lemma setState_notified (p : StatePatch) (st : Store.t) :
  notified (fst (setState p st)) (snd (setState p st)) /\
  listeners (fst (setState p st)) = listeners st.
Proof. split; reflexivity. Qed.

(** C10. Each targeted update of the store changes its own part of the
    state and nothing else: [updateImage] merges the given fields into the
    image record, keeps the image fields that are not given, and keeps
    [currentDataset], [datasets], [stats] and [isLoading]; [updateStats]
    does the same for the statistics, [setLoading] changes only the
    loading flag and [updateDataset] only the current dataset.  Each of
    them installs a newly allocated state object and leaves the old one as
    it was. *)
Theorem store_update_frames (st : Store.t) :
  (forall p : ImagePatch,
      let st' := fst (updateImage p st) in
      let i := image (state st) in
      let i' := image (state st') in
      (merged (data i) (data' p) (data i') /\
       merged (path i) (path' p) (path i') /\
       merged (index i) (index' p) (index i') /\
       merged (total i) (total' p) (total i') /\
       merged (status i) (status' p) (status i')) /\
      (currentDataset (state st') = currentDataset (state st) /\
       datasets (state st') = datasets (state st) /\
       stats (state st') = stats (state st) /\
       isLoading (state st') = isLoading (state st)) /\
      replaced st st') /\
  (forall p : StatsPatch,
      let st' := fst (updateStats p st) in
      let c := stats (state st) in
      let c' := stats (state st') in
      (merged (watermarked c) (watermarked' p) (watermarked c') /\
       merged (noWatermarked c) (noWatermarked' p) (noWatermarked c') /\
       merged (targetWatermarked c) (targetWatermarked' p) (targetWatermarked c') /\
       merged (targetNoWatermarked c) (targetNoWatermarked' p)
              (targetNoWatermarked c')) /\
      (currentDataset (state st') = currentDataset (state st) /\
       datasets (state st') = datasets (state st) /\
       image (state st') = image (state st) /\
       isLoading (state st') = isLoading (state st)) /\
      replaced st st') /\
  (forall loading : bool,
      let st' := fst (setLoading loading st) in
      isLoading (state st') = loading /\
      (currentDataset (state st') = currentDataset (state st) /\
       datasets (state st') = datasets (state st) /\
       image (state st') = image (state st) /\
       stats (state st') = stats (state st)) /\
      replaced st st') /\
  (forall datasetName : string,
      let st' := fst (updateDataset datasetName st) in
      currentDataset (state st') = Some datasetName /\
      (datasets (state st') = datasets (state st) /\
       image (state st') = image (state st) /\
       stats (state st') = stats (state st) /\
       isLoading (state st') = isLoading (state st)) /\
      replaced st st').
Proof.
  repeat apply conj.
  - intros [[d|] [q|] [n|] [m|] [u|]]; cbn;
      (repeat apply conj; try reflexivity); apply setState_replaced.
  - intros [[a|] [b|] [c|] [d|]]; cbn;
      (repeat apply conj; try reflexivity); apply setState_replaced.
  - intros b; cbn. repeat apply conj; try reflexivity. apply setState_replaced.
  - intros n; cbn. repeat apply conj; try reflexivity. apply setState_replaced.
Qed.

End StoreFacts.

(** ** The statistics pills *)

Section CompletionFacts.
Import Store.

Lemma contains_add c l : Ui.contains c (Ui.classList_add c l) = true.
Proof.
  unfold Ui.contains, Ui.classList_add.
  destruct (existsb (String.eqb c) l) eqn:E; [exact E|].
  rewrite existsb_app, E. cbn. now rewrite String.eqb_refl.
Qed.

Lemma contains_remove c l : Ui.contains c (Ui.classList_remove c l) = false.
Proof.
  unfold Ui.contains, Ui.classList_remove.
  induction l as [|x l IH]; cbn; [reflexivity|].
  destruct (String.eqb c x) eqn:E; cbn; [exact IH|].
  now rewrite E, IH.
Qed.

Lemma pill_complete (b : bool) l :
  Ui.contains "complete"
    (if b then Ui.classList_add "complete" l else Ui.classList_remove "complete" l)
  = b.
Proof. destruct b; [apply contains_add | apply contains_remove]. Qed.

(** C7. After every rendering of the statistics, a pill carries the class
    [complete] exactly when [target > 0 && current >= target], whatever the
    pill looked like before; a counter whose target is 0 is never marked
    complete.  For targets 10 and 10 and counts 10 and 3 the watermarked
    counter is complete, the other one is not, and the texts are [10/10]
    and [3/10].  The index-based panel computes the same flag from
    [target_count] and [current_count] whenever it is shown. *)
Theorem completion_flag :
  (forall (stats : Stats) (dom : Ui.Dom),
      Ui.contains "complete" (Ui.statPillWm (Ui.updateStats stats dom))
      = (targetWatermarked stats >? 0) && (watermarked stats >=? targetWatermarked stats)
      /\
      Ui.contains "complete" (Ui.statPillNwm (Ui.updateStats stats dom))
      = (targetNoWatermarked stats >? 0)
        && (noWatermarked stats >=? targetNoWatermarked stats)) /\
  (forall (current other otherTarget : Z) (dom : Ui.Dom),
      Ui.contains "complete"
        (Ui.statPillWm (Ui.updateStats (mkStats current other 0 otherTarget) dom))
      = false /\
      Ui.contains "complete"
        (Ui.statPillNwm (Ui.updateStats (mkStats other current otherTarget 0) dom))
      = false) /\
  (forall dom : Ui.Dom,
      let dom' := Ui.updateStats (mkStats 10 3 10 10) dom in
      Ui.contains "complete" (Ui.statPillWm dom') = true /\
      Ui.contains "complete" (Ui.statPillNwm dom') = false /\
      Ui.statWm dom' = "10/10" /\
      Ui.statNwm dom' = "3/10") /\
  (forall p : Legacy.StatsPanel,
      Legacy.updateTargetStats "产品图" [Fixtures.products] p
      = Legacy.mkPanel "flex" "10/10" "stat-value complete" "3/10" "stat-value ") /\
  (forall (typeName : string) (wmTarget nwmTarget wmCurrent nwmCurrent : Z)
          (priority : option Z) (annotated images : Z)
          (others : list Dataset.t) (p : Legacy.StatsPanel),
      let type := Dataset.mk typeName
                    (Some (Counts.mk (Some wmTarget) (Some nwmTarget)))
                    (Some (Counts.mk (Some wmCurrent) (Some nwmCurrent)))
                    priority annotated images in
      let p' := Legacy.updateTargetStats typeName (type :: others) p in
      if wmTarget + nwmTarget >? 0 then
        Legacy.stat_watermarked_class p'
        = "stat-value "
          ++ (if (wmTarget >? 0) && (wmCurrent >=? wmTarget) then "complete" else "")
        /\
        Legacy.stat_no_watermark_class p'
        = "stat-value "
          ++ (if (nwmTarget >? 0) && (nwmCurrent >=? nwmTarget) then "complete" else "")
      else
        p' = Legacy.mkPanel "none"
               (Legacy.stat_watermarked p) (Legacy.stat_watermarked_class p)
               (Legacy.stat_no_watermark p) (Legacy.stat_no_watermark_class p)).
Proof.
  repeat apply conj.
  - intros stats dom. unfold Ui.updateStats. cbn [Ui.statPillWm Ui.statPillNwm].
    split; apply pill_complete.
  - intros current other otherTarget dom. unfold Ui.updateStats.
    cbn [Ui.statPillWm Ui.statPillNwm targetWatermarked targetNoWatermarked
         watermarked noWatermarked].
    rewrite !pill_complete. split; reflexivity.
  - intros dom. cbv zeta. unfold Ui.updateStats.
    cbn [Ui.statPillWm Ui.statPillNwm Ui.statWm Ui.statNwm targetWatermarked
         targetNoWatermarked watermarked noWatermarked].
    rewrite !pill_complete. repeat split; reflexivity.
  - intros p. reflexivity.
  - intros typeName wmTarget nwmTarget wmCurrent nwmCurrent priority annotated
           images others p.
    cbv zeta. unfold Legacy.updateTargetStats.
    cbn [find Dataset.name]. rewrite String.eqb_refl.
    cbn [Dataset.target_count Dataset.current_count Counts.watermarked
         Counts.non_watermarked or0].
    destruct (wmTarget + nwmTarget >? 0); cbn [negb]; [split|]; reflexivity.
Qed.

End CompletionFacts.

(** ** Symbolic runs *)

Ltac app_unfold :=
  unfold App.getState, App.store, App.api, await, ask, finally, try_catch, bind,
    get_page, modify_page, ui, toast, emit, ret, Store.getState.

Ltac legacy_unfold :=
  unfold Legacy.getState, Legacy.assign, Legacy.api, await, ask, finally,
    try_catch, bind, get_page, modify_page, ui, toast, emit, ret.

(** Case analysis on every answer of the service met along the run. *)
Ltac answers :=
  repeat (cbn -[Store.setLoading Store.updateImage Store.updateStats
                Store.updateDataset Store.setState];
          match goal with
          | |- context [match ?a with Resolved _ => _ | Rejected _ => _ end] =>
              let E := fresh "Answer" in destruct a eqn:E
          end).

Ltac logs := repeat (progress (cbn; autorewrite with logs)).

(** Preservation through the structure of a handler; [known] closes the
    calls of handlers that were treated before. *)
Ltac keeps known :=
  cbv zeta;
  repeat first
    [ known
    | apply preserves_ret | apply preserves_toast | apply preserves_ui
    | apply preserves_ask | apply preserves_await | apply preserves_get_page
    | apply preserves_emit
    | apply preserves_bind; [|intros ?]
    | apply preserves_try_catch; [|intros ?]
    | apply preserves_finally
    | match goal with
      | |- preserves _ (match ?x with _ => _ end) => destruct x
      | |- preserves _ (if ?b then _ else _) => destruct b
      end ].

(** ** The store-based controllers *)

Section AppFacts.
Import Store.
Local Open Scope handler_scope.
Implicit Types (env : Env) (w : App.W).

(** Without a current dataset [loadCurrentImage] returns at once. *)
Lemma loadCurrentImage_unset env w :
  truthy (currentDataset (state (page w))) = false ->
  App.loadCurrentImage env w = (Return tt, w).
Proof.
  intros Hf. unfold App.loadCurrentImage. app_unfold.
  destruct (currentDataset (state (page w))) as [[|a s]|];
    try discriminate; reflexivity.
Qed.

(** With a current dataset it always returns normally, with the loading
    flag cleared and the image record either served whole or blanked. *)
Lemma loadCurrentImage_loads env w dataset :
  currentDataset (state (page w)) = Some dataset ->
  dataset <> "" ->
  exists w' evs,
    App.loadCurrentImage env w = (Return tt, w') /\
    log w' = (log w ++ evs)%list /\
    issued_while_loading evs = true /\
    toasts evs = [] /\
    listeners (page w') = listeners (page w) /\
    currentDataset (state (page w')) = Some dataset /\
    datasets (state (page w')) = datasets (state (page w)) /\
    stats (state (page w')) = stats (state (page w)) /\
    isLoading (state (page w')) = false /\
    image (state (page w')) =
      match App.fetched env (tick w) dataset with
      | Resolved (info, base64) => App.served (image (state (page w))) info base64
      | Rejected _ => App.blank (image (state (page w)))
      end /\
    (forall e, App.fetched env (tick w) dataset = Rejected e ->
               In (Ui (ConsoleError e)) evs) /\
    Forall (fun snap => image snap = image (state (page w)) \/
                        image snap = image (state (page w')))
           (snapshots evs).
Proof.
  intros Hd Hne. unfold App.loadCurrentImage, App.fetched. app_unfold.
  rewrite Hd. destruct dataset as [|a s]; [congruence|].
  answers; (do 2 eexists); (split; [reflexivity|]);
    (split; [cbn; rewrite <- ?app_assoc; reflexivity|]);
    logs; rewrite ?Hd;
    repeat (split; try reflexivity);
    try (intros e [= <-]; rewrite !in_app_iff; cbn; now auto 8);
    try discriminate;
    rewrite ?Forall_app; repeat split;
    apply Forall_forall; intros x Hx; apply in_map_iff in Hx;
    destruct Hx as (? & <- & _); auto.
Qed.

(** Past its guard [loadCurrentImage] begins by raising the flag: every
    listener is handed the state with [isLoading] set, and only then does
    the request for the current image go out. *)
Lemma loadCurrentImage_raises env w dataset :
  currentDataset (state (page w)) = Some dataset ->
  dataset <> "" ->
  exists rest,
    since w (snd (App.loadCurrentImage env w))
    = (map (fun listener =>
              Deliver listener
                (mkState (Some dataset) (datasets (state (page w)))
                         (image (state (page w))) (stats (state (page w))) true))
           (listeners (page w))
       ++ Request true (GetCurrentImage dataset) :: rest)%list.
Proof.
  intros Hd Hne. unfold App.loadCurrentImage. app_unfold.
  rewrite Hd. destruct dataset as [|a s]; [congruence|].
  answers; eexists; apply since_app; cbn; unfold spreadState; cbn;
    rewrite Hd, <- ?app_assoc; cbn; reflexivity.
Qed.

Lemma updateProgress_spec env w :
  exists w' evs,
    App.updateProgress env w = (Return tt, w') /\
    log w' = (log w ++ evs)%list /\
    toasts evs = [] /\
    listeners (page w') = listeners (page w) /\
    currentDataset (state (page w')) = currentDataset (state (page w)) /\
    datasets (state (page w')) = datasets (state (page w)) /\
    isLoading (state (page w')) = isLoading (state (page w)) /\
    data (image (state (page w'))) = data (image (state (page w))) /\
    path (image (state (page w'))) = path (image (state (page w))) /\
    index (image (state (page w'))) = index (image (state (page w))) /\
    status (image (state (page w'))) = status (image (state (page w))).
Proof.
  unfold App.updateProgress. app_unfold.
  destruct (currentDataset (state (page w))) as [[|a s]|] eqn:Hd.
  1, 3: exists w, []; rewrite app_nil_r; repeat split; auto.
  answers; (do 2 eexists); (split; [reflexivity|]);
    (split; [cbn; rewrite <- ?app_assoc; reflexivity|]);
    logs; rewrite ?Hd, ?app_nil_r;
    repeat (split; try reflexivity).
Qed.

(** Whatever the current dataset, [loadCurrentImage] returns normally, only
    appends to the log, and keeps the current dataset and the listeners. *)
Lemma loadCurrentImage_returns env w :
  exists w' evs,
    App.loadCurrentImage env w = (Return tt, w') /\
    log w' = (log w ++ evs)%list /\
    currentDataset (state (page w')) = currentDataset (state (page w)) /\
    (isLoading (state (page w)) = false -> isLoading (state (page w')) = false).
Proof.
  destruct (truthy (currentDataset (state (page w)))) eqn:Ht.
  - destruct (currentDataset (state (page w))) as [dataset|] eqn:Hd;
      [|discriminate].
    assert (Hne : dataset <> "") by (intros ->; discriminate).
    destruct (loadCurrentImage_loads env w Hd Hne)
      as (w' & evs & Hrun & Hlog & _ & _ & _ & Hd' & _ & _ & Hl & _).
    exists w', evs. auto.
  - exists w, []. rewrite app_nil_r, (loadCurrentImage_unset env w Ht). auto.
Qed.

Lemma selectDataset_same env w name :
  currentDataset (state (page w)) = Some name ->
  App.selectDataset name env w = (Return tt, w).
Proof.
  intros Hd. unfold App.selectDataset. app_unfold.
  rewrite Hd. cbn. now rewrite String.eqb_refl.
Qed.

Lemma strict_eq_true (a : option string) (b : string) :
  strict_eq a b = true -> a = Some b.
Proof.
  destruct a as [s|]; cbn; [|discriminate].
  intros H. apply String.eqb_eq in H. now subst.
Qed.

(** The run of [selectDataset] on another dataset, step by step. *)
Lemma selectDataset_other env w name :
  strict_eq (currentDataset (state (page w))) name = false ->
  exists w' rest,
    App.selectDataset name env w = (Return tt, w') /\
    log w' =
      (log w
       ++ map (fun listener =>
                 Deliver listener
                   (mkState (Some name) (datasets (state (page w)))
                            (image (state (page w))) (stats (state (page w)))
                            (isLoading (state (page w)))))
              (listeners (page w))
       ++ Ui (SetHeader name) :: rest)%list /\
    currentDataset (state (page w')) = Some name /\
    (isLoading (state (page w)) = false -> isLoading (state (page w')) = false) /\
    (name <> "" ->
     isLoading (state (page w')) = false /\
     (data (image (state (page w'))), path (image (state (page w')))) =
       match App.fetched env (tick w) name with
       | Resolved (info, base64) => (Some base64, Some (ImageInfo.path info))
       | Rejected _ => (None, None)
       end).
Proof.
  intros Hneq. unfold App.selectDataset. app_unfold. rewrite Hneq.
  cbn [page log tick].
  destruct (find _ _) as [[n [tc|] cc pr an ti]|];
    cbn -[App.loadCurrentImage App.updateProgress updateDataset updateStats];
    match goal with
    | |- context [App.loadCurrentImage env ?W] => set (w2 := W)
    end.
  all: assert (Hd2 : currentDataset (state (page w2)) = Some name) by reflexivity.
  all: assert (Hl2 : isLoading (state (page w2)) = isLoading (state (page w)))
         by reflexivity.
  all: assert (Ht2 : tick w2 = tick w) by reflexivity.
  all: assert (Hlog2 : exists evs2,
                  log w2 =
                    (log w
                     ++ map (fun listener =>
                               Deliver listener
                                 (mkState (Some name) (datasets (state (page w)))
                                    (image (state (page w))) (stats (state (page w)))
                                    (isLoading (state (page w)))))
                            (listeners (page w))
                     ++ Ui (SetHeader name) :: evs2)%list)
         by (eexists; subst w2; cbn; rewrite <- !app_assoc; cbn; reflexivity).
  all: clearbody w2; destruct Hlog2 as (evs2 & Hlog2).
  all: destruct (loadCurrentImage_returns env w2)
         as (w3 & evs3 & Hrun3 & Hlog3 & Hd3 & Hl3); rewrite Hrun3.
  all: destruct (updateProgress_spec env w3)
         as (w4 & evs4 & Hrun4 & Hlog4 & _ & _ & Hd4 & _ & Hl4 & Hdata4 & Hpath4 & _);
         rewrite Hrun4.
  all: exists w4, (evs2 ++ evs3 ++ evs4)%list.
  all: split; [reflexivity|]; split;
         [rewrite Hlog4, Hlog3, Hlog2; rewrite <- !app_assoc; reflexivity|].
  all: split; [congruence|];
         split; [intros Hidle; rewrite Hl4; apply Hl3; congruence|].
  all: intros Hne;
         destruct (loadCurrentImage_loads env w2 Hd2 Hne)
           as (w3' & evs3' & Hrun3' & _ & _ & _ & _ & _ & _ & _ & Hl3' & Himg & _);
         rewrite Hrun3 in Hrun3'; injection Hrun3' as <-.
  all: split; [congruence|]; rewrite Hdata4, Hpath4, Himg, Ht2.
  all: destruct (App.fetched env (tick w) name) as [[info base64]|]; reflexivity.
Qed.

(** After [selectDataset(name)] the current dataset is [name]. *)
Lemma selectDataset_selects env w name :
  exists w',
    App.selectDataset name env w = (Return tt, w') /\
    currentDataset (state (page w')) = Some name.
Proof.
  destruct (strict_eq (currentDataset (state (page w))) name) eqn:E.
  - apply strict_eq_true in E. exists w. now rewrite selectDataset_same.
  - destruct (selectDataset_other env w name E) as (w' & rest & Hrun & _ & Hd & _).
    exists w'. auto.
Qed.


(** *** The loading flag through the store-based handlers *)

Lemma idle_store (method : Store.t -> Store.t * list (Event State)) :
  (forall st, App.idle st -> App.idle (fst (method st))) ->
  preserves App.idle (App.store method).
Proof. intros Hm env w H. apply Hm. exact H. Qed.

Lemma idle_getState : preserves App.idle App.getState.
Proof. intros env w H. exact H. Qed.

Lemma idle_api A (r : Req) (answer : Env -> nat -> reply A) :
  preserves App.idle (App.api r answer).
Proof. apply preserves_await. Qed.

Lemma idle_loadCurrentImage : preserves App.idle App.loadCurrentImage.
Proof.
  intros env w H.
  destruct (loadCurrentImage_returns env w) as (w' & evs & Hrun & _ & _ & Hl).
  rewrite Hrun. apply Hl. exact H.
Qed.

Lemma idle_updateProgress : preserves App.idle App.updateProgress.
Proof.
  intros env w H.
  destruct (updateProgress_spec env w)
    as (w' & evs & Hrun & _ & _ & _ & _ & _ & Hl & _).
  rewrite Hrun. unfold App.idle. cbn. rewrite Hl. exact H.
Qed.

Ltac app_known :=
  first [ apply idle_loadCurrentImage | apply idle_updateProgress
        | apply idle_getState | apply idle_api
        | apply idle_store; intros ? ?; assumption ].

(** The listeners of the page write to the array [datasets] only. *)
Lemma notify_frame (s : State) (ls : list nat) :
  currentDataset (fst (App.notify s ls)) = currentDataset s /\
  image (fst (App.notify s ls)) = image s /\
  stats (fst (App.notify s ls)) = stats s /\
  isLoading (fst (App.notify s ls)) = isLoading s.
Proof.
  revert s. induction ls as [|l ls IH]; intros s; cbn [App.notify fst]; [auto|].
  destruct (IH (if Nat.eqb l App.subscriber then App.rendered s else s))
    as (Hd & Hi & Hs & Hl).
  rewrite Hd, Hi, Hs, Hl. destruct (Nat.eqb l App.subscriber); auto.
Qed.

Lemma idle_refreshDatasets : preserves App.idle App.refreshDatasets.
Proof.
  unfold App.refreshDatasets.
  keeps ltac:(first [ app_known
                    | apply idle_store; intros st Hidle; unfold App.idle;
                      cbn [App.setDatasets fst state];
                      rewrite (proj2 (proj2 (proj2 (notify_frame _ _))));
                      exact Hidle ]).
Qed.

Lemma idle_selectDataset name : preserves App.idle (App.selectDataset name).
Proof. unfold App.selectDataset. keeps app_known. Qed.

Lemma idle_handleAnnotation label : preserves App.idle (App.handleAnnotation label).
Proof. unfold App.handleAnnotation. keeps app_known. Qed.

Lemma idle_handleSkip : preserves App.idle App.handleSkip.
Proof. unfold App.handleSkip. keeps app_known. Qed.

Lemma idle_handleDelete : preserves App.idle App.handleDelete.
Proof. unfold App.handleDelete. keeps app_known. Qed.

Lemma idle_handleNavigate direction : preserves App.idle (App.handleNavigate direction).
Proof. unfold App.handleNavigate. keeps app_known. Qed.

Lemma idle_handleUndo : preserves App.idle App.handleUndo.
Proof. unfold App.handleUndo. keeps app_known. Qed.

End AppFacts.

(** ** The index-based controllers *)

Section LegacyFacts.
Import Legacy.
Local Open Scope handler_scope.
Implicit Types (env : Env) (w : Legacy.W).

(** Without a current type [loadCurrentImage] only hides the image. *)
Lemma legacy_loadCurrentImage_unset env w :
  truthy (currentType (state (page w))) = false ->
  Legacy.loadCurrentImage env w =
  (Return tt, mkWorld (page w) (log w ++ [Ui HideImage]) (tick w)).
Proof.
  intros Hf. unfold Legacy.loadCurrentImage. legacy_unfold.
  destruct (currentType (state (page w))) as [[|a s]|];
    try discriminate; reflexivity.
Qed.

(** While a load is in flight, the loaders return at once. *)
Lemma legacy_loadCurrentImage_busy env w :
  truthy (currentType (state (page w))) = true ->
  isLoading (state (page w)) = true ->
  Legacy.loadCurrentImage env w = (Return tt, w).
Proof.
  intros Ht Hb. unfold Legacy.loadCurrentImage. legacy_unfold.
  destruct (currentType (state (page w))) as [[|a s]|];
    try discriminate. now rewrite Hb.
Qed.

Lemma legacy_loadImageByIndex_guarded env w index :
  truthy (currentType (state (page w))) = false \/
  isLoading (state (page w)) = true ->
  Legacy.loadImageByIndex index env w = (Return tt, w).
Proof.
  intros Hg. unfold Legacy.loadImageByIndex. legacy_unfold.
  destruct (currentType (state (page w))) as [[|a s]|]; try reflexivity.
  destruct Hg as [Hg|Hg]; [discriminate|]. now rewrite Hg.
Qed.

(** Past its guards a loader returns normally with the flag cleared, and
    all its requests went out while the flag was set. *)
Lemma legacy_loadCurrentImage_loads env w :
  truthy (currentType (state (page w))) = true ->
  isLoading (state (page w)) = false ->
  exists w' evs,
    Legacy.loadCurrentImage env w = (Return tt, w') /\
    log w' = (log w ++ evs)%list /\
    issued_while_loading evs = true /\
    currentType (state (page w')) = currentType (state (page w)) /\
    isLoading (state (page w')) = false.
Proof.
  intros Ht Hb. unfold Legacy.loadCurrentImage. legacy_unfold.
  destruct (currentType (state (page w))) as [[|a s]|] eqn:Hd;
    try discriminate.
  rewrite Hb.
  answers; (do 2 eexists); (split; [reflexivity|]);
    (split; [cbn; rewrite <- ?app_assoc; reflexivity|]);
    logs; rewrite ?Hd; repeat (split; try reflexivity).
Qed.

Lemma legacy_loadImageByIndex_loads env w index :
  truthy (currentType (state (page w))) = true ->
  isLoading (state (page w)) = false ->
  exists w' evs,
    Legacy.loadImageByIndex index env w = (Return tt, w') /\
    log w' = (log w ++ evs)%list /\
    issued_while_loading evs = true /\
    currentType (state (page w')) = currentType (state (page w)) /\
    isLoading (state (page w')) = false.
Proof.
  intros Ht Hb. unfold Legacy.loadImageByIndex. legacy_unfold.
  destruct (currentType (state (page w))) as [[|a s]|] eqn:Hd;
    try discriminate.
  rewrite Hb.
  answers; (do 2 eexists); (split; [reflexivity|]);
    (split; [cbn; rewrite <- ?app_assoc; reflexivity|]);
    logs; rewrite ?Hd; repeat (split; try reflexivity).
Qed.

(** Past their guards the loaders begin by raising the flag and showing
    the spinner; their first request goes out with the flag set. *)
Lemma legacy_loadCurrentImage_raises env w type :
  currentType (state (page w)) = Some type ->
  type <> "" ->
  isLoading (state (page w)) = false ->
  exists rest,
    since w (snd (Legacy.loadCurrentImage env w))
    = Ui ShowLoading :: Request true (GetCurrentImage type) :: rest.
Proof.
  intros Hd Hne Hb. unfold Legacy.loadCurrentImage. legacy_unfold.
  rewrite Hd. destruct type as [|a s]; [congruence|]. rewrite Hb.
  answers; eexists; apply since_app; cbn; rewrite <- ?app_assoc; cbn; reflexivity.
Qed.

Lemma legacy_loadImageByIndex_raises env w index type :
  currentType (state (page w)) = Some type ->
  type <> "" ->
  isLoading (state (page w)) = false ->
  exists rest,
    since w (snd (Legacy.loadImageByIndex index env w))
    = Ui ShowLoading :: Request true (GetImageByIndex type index) :: rest.
Proof.
  intros Hd Hne Hb. unfold Legacy.loadImageByIndex. legacy_unfold.
  rewrite Hd. destruct type as [|a s]; [congruence|]. rewrite Hb.
  answers; eexists; apply since_app; cbn; rewrite <- ?app_assoc; cbn; reflexivity.
Qed.

(** In every case the loaders return normally and keep the current type. *)
Lemma legacy_loadCurrentImage_returns env w :
  exists w',
    Legacy.loadCurrentImage env w = (Return tt, w') /\
    currentType (state (page w')) = currentType (state (page w)) /\
    issued_while_loading (since w w') = true /\
    (isLoading (state (page w)) = false -> isLoading (state (page w')) = false).
Proof.
  destruct (truthy (currentType (state (page w)))) eqn:Ht.
  - destruct (isLoading (state (page w))) eqn:Hb.
    + exists w. rewrite legacy_loadCurrentImage_busy, since_same by assumption.
      repeat split; auto; congruence.
    + destruct (legacy_loadCurrentImage_loads env w Ht Hb)
        as (w' & evs & Hrun & Hlog & Hreq & Hd & Hl).
      exists w'. erewrite since_app by exact Hlog. repeat split; auto; congruence.
  - eexists. rewrite legacy_loadCurrentImage_unset by exact Ht.
    split; [reflexivity|]. erewrite since_app by reflexivity.
    repeat split; auto; congruence.
Qed.

Lemma legacy_loadImageByIndex_returns env w index :
  exists w',
    Legacy.loadImageByIndex index env w = (Return tt, w') /\
    currentType (state (page w')) = currentType (state (page w)) /\
    issued_while_loading (since w w') = true /\
    (isLoading (state (page w)) = false -> isLoading (state (page w')) = false).
Proof.
  destruct (truthy (currentType (state (page w)))) eqn:Ht.
  - destruct (isLoading (state (page w))) eqn:Hb.
    + exists w. rewrite legacy_loadImageByIndex_guarded, since_same by auto.
      repeat split; auto; congruence.
    + destruct (legacy_loadImageByIndex_loads env w index Ht Hb)
        as (w' & evs & Hrun & Hlog & Hreq & Hd & Hl).
      exists w'. erewrite since_app by exact Hlog. repeat split; auto; congruence.
  - exists w. rewrite legacy_loadImageByIndex_guarded, since_same by auto.
    repeat split; auto; congruence.
Qed.

Lemma legacy_loadTypes_returns env w skipScan :
  exists w',
    Legacy.loadTypes skipScan env w = (Return tt, w') /\
    currentType (state (page w')) = currentType (state (page w)) /\
    isLoading (state (page w')) = isLoading (state (page w)).
Proof.
  unfold Legacy.loadTypes. legacy_unfold.
  answers; eexists; repeat split.
Qed.

Lemma selectType_same env w typeName :
  currentType (state (page w)) = Some typeName ->
  Legacy.selectType typeName env w = (Return tt, w).
Proof.
  intros Hd. unfold Legacy.selectType. legacy_unfold.
  rewrite Hd. cbn. now rewrite String.eqb_refl.
Qed.

Lemma selectType_selects env w typeName :
  exists w',
    Legacy.selectType typeName env w = (Return tt, w') /\
    currentType (state (page w')) = Some typeName.
Proof.
  destruct (strict_eq (currentType (state (page w))) typeName) eqn:E.
  - apply strict_eq_true in E. exists w. now rewrite selectType_same.
  - unfold Legacy.selectType. legacy_unfold. rewrite E.
    cbn -[Legacy.loadCurrentImage Legacy.updateTargetStats].
    match goal with
    | |- context [Legacy.loadCurrentImage env ?W] =>
        destruct (legacy_loadCurrentImage_returns env W)
          as (w' & Hrun & Hd & _)
    end.
    exists w'. split; [exact Hrun|]. rewrite Hd. reflexivity.
Qed.

(** *** The loading flag through the index-based handlers *)

Lemma legacy_idle_assign (f : State -> State) :
  (forall s, isLoading (f s) = isLoading s) ->
  preserves Legacy.idle (Legacy.assign f).
Proof.
  intros Hf. apply preserves_modify_page. intros p H.
  unfold Legacy.idle in *. cbn. now rewrite Hf.
Qed.

Lemma legacy_idle_getState : preserves Legacy.idle Legacy.getState.
Proof. intros env w H. exact H. Qed.

Lemma legacy_idle_api A (r : Req) (answer : Env -> nat -> reply A) :
  preserves Legacy.idle (Legacy.api r answer).
Proof. apply preserves_await. Qed.

Lemma legacy_idle_loadCurrentImage : preserves Legacy.idle Legacy.loadCurrentImage.
Proof.
  intros env w H.
  destruct (legacy_loadCurrentImage_returns env w) as (w' & Hrun & _ & _ & Hl).
  rewrite Hrun. apply Hl. exact H.
Qed.

Lemma legacy_idle_loadImageByIndex index :
  preserves Legacy.idle (Legacy.loadImageByIndex index).
Proof.
  intros env w H.
  destruct (legacy_loadImageByIndex_returns env w index) as (w' & Hrun & _ & _ & Hl).
  rewrite Hrun. apply Hl. exact H.
Qed.

Ltac legacy_known :=
  first [ apply legacy_idle_loadCurrentImage | apply legacy_idle_loadImageByIndex
        | apply legacy_idle_getState | apply legacy_idle_api
        | apply legacy_idle_assign; intros ?; reflexivity
        | apply preserves_modify_page; intros ? ?; assumption ].

Lemma legacy_idle_loadTypes skipScan : preserves Legacy.idle (Legacy.loadTypes skipScan).
Proof. unfold Legacy.loadTypes. keeps legacy_known. Qed.

Lemma legacy_idle_selectType typeName :
  preserves Legacy.idle (Legacy.selectType typeName).
Proof. unfold Legacy.selectType. keeps legacy_known. Qed.

Lemma legacy_idle_navigateNext : preserves Legacy.idle Legacy.navigateNext.
Proof. unfold Legacy.navigateNext. keeps legacy_known. Qed.

Lemma legacy_idle_navigatePrev : preserves Legacy.idle Legacy.navigatePrev.
Proof. unfold Legacy.navigatePrev. keeps legacy_known. Qed.

Lemma legacy_idle_annotate label : preserves Legacy.idle (Legacy.annotate label).
Proof.
  unfold Legacy.annotate.
  keeps ltac:(first [ apply legacy_idle_navigateNext | apply legacy_idle_loadTypes
                    | legacy_known ]).
Qed.

Lemma legacy_idle_skipImage : preserves Legacy.idle Legacy.skipImage.
Proof.
  unfold Legacy.skipImage.
  keeps ltac:(first [ apply legacy_idle_navigateNext | legacy_known ]).
Qed.

Lemma legacy_idle_undoAction : preserves Legacy.idle Legacy.undoAction.
Proof.
  unfold Legacy.undoAction.
  keeps ltac:(first [ apply legacy_idle_loadTypes | legacy_known ]).
Qed.

Lemma legacy_idle_redoAction : preserves Legacy.idle Legacy.redoAction.
Proof.
  unfold Legacy.redoAction.
  keeps ltac:(first [ apply legacy_idle_loadTypes | legacy_known ]).
Qed.

End LegacyFacts.

(** * The claims *)

Section Claims.
Import Store Fixtures.
Local Open Scope handler_scope.

(** ** Switching datasets (C1, C9) *)




(** C9.  Selecting the dataset that is already selected returns at once:
    the world, and with it the store, the log and the number of requests
    issued, is the one before the call; hence selecting a dataset twice in
    a row is the same as selecting it once.  The same holds for
    [selectType] of the index-based front end. *)
Theorem selectDataset_idempotent :
  (forall env (w : App.W) name,
      currentDataset (state (page w)) = Some name ->
      App.selectDataset name env w = (Return tt, w)) /\
  (forall env (w : App.W) name,
      (App.selectDataset name ;; App.selectDataset name) env w
      = App.selectDataset name env w) /\
  (forall env (w : Legacy.W) typeName,
      Legacy.currentType (Legacy.state (page w)) = Some typeName ->
      Legacy.selectType typeName env w = (Return tt, w)) /\
  (forall env (w : Legacy.W) typeName,
      (Legacy.selectType typeName ;; Legacy.selectType typeName) env w
      = Legacy.selectType typeName env w).
Proof.
  repeat apply conj.
  - intros env w name. apply selectDataset_same.
  - intros env w name. unfold bind.
    destruct (selectDataset_selects env w name) as (w' & Hrun & Hd).
    rewrite Hrun. now rewrite selectDataset_same.
  - intros env w typeName. apply selectType_same.
  - intros env w typeName. unfold bind.
    destruct (selectType_selects env w typeName) as (w' & Hrun & Hd).
    rewrite Hrun. now rewrite selectType_same.
Qed.

Lemma selectDataset_idempotent_witness :
  currentDataset (state (page (world_A false))) = Some "A" /\
  App.selectDataset "A" online (world_A false) = (Return tt, world_A false) /\
  Legacy.currentType (Legacy.state (page (legacy_A false))) = Some "A" /\
  Legacy.selectType "A" online (legacy_A false) = (Return tt, legacy_A false).
Proof.
  split; [reflexivity|]. split.
  - apply (proj1 selectDataset_idempotent). reflexivity.
  - split; [reflexivity|].
    apply (proj1 (proj2 (proj2 selectDataset_idempotent))). reflexivity.
Defined.

(** ** Loading the current image (C3, C4) *)

(** C3, counterexample.  An image of dataset A is on display and the
    service is unreachable: [loadCurrentImage] does not keep the image, it
    blanks the stored pixels and the stored path. *)
Lemma loadCurrentImage_drops_displayed_image :
  data (image (state (page (world_A false)))) = Some "QUFBQQ==" /\
  path (image (state (page (world_A false)))) = Some "A/0004.jpg" /\
  Remote.getCurrentImage offline 0 "A" = Rejected "Network Error" /\
  data (image (state (page (snd (App.loadCurrentImage offline (world_A false))))))
  = None /\
  path (image (state (page (snd (App.loadCurrentImage offline (world_A false))))))
  = None.
Proof. repeat split; reflexivity. Qed.

(** C3, amended.  With a current dataset, [loadCurrentImage] writes the
    image record once.  When both fetches resolve, the pixels, the path,
    the index and the status are replaced together by the served ones.
    When either fetch is rejected, the pixels and the path are set to
    [null], whether or not an image was on display, the index, the total
    and the status keep their values, and the error is written to the
    console.  Every snapshot a subscriber receives during the call holds
    the image record of before or the one of after the call, so a new path
    is never seen with old pixels. *)
Theorem loadCurrentImage_whole_or_blank env (w : App.W) dataset :
  currentDataset (state (page w)) = Some dataset ->
  dataset <> "" ->
  image (state (page (snd (App.loadCurrentImage env w)))) =
    match App.fetched env (tick w) dataset with
    | Resolved (info, base64) =>
        mkImage (Some base64) (Some (ImageInfo.path info)) (ImageInfo.index info)
                (total (image (state (page w)))) (ImageInfo.status info)
    | Rejected _ =>
        mkImage None None (index (image (state (page w))))
                (total (image (state (page w)))) (status (image (state (page w))))
    end /\
  (forall e, App.fetched env (tick w) dataset = Rejected e ->
             In (Ui (ConsoleError e)) (since w (snd (App.loadCurrentImage env w)))) /\
  Forall (fun snap =>
            image snap = image (state (page w)) \/
            image snap = image (state (page (snd (App.loadCurrentImage env w)))))
         (snapshots (since w (snd (App.loadCurrentImage env w)))).
Proof.
  intros Hd Hne.
  destruct (loadCurrentImage_loads env w Hd Hne)
    as (w' & evs & Hrun & Hlog & _ & _ & _ & _ & _ & _ & _ & Himg & Herr & Hsnap).
  rewrite Hrun. cbn [snd]. erewrite since_app by exact Hlog.
  repeat split; assumption.
Qed.

Lemma loadCurrentImage_whole_or_blank_witness :
  currentDataset (state (page (world_A false))) = Some "A" /\
  "A" <> "" /\
  image (state (page (snd (App.loadCurrentImage pixels_missing (world_A false)))))
  = mkImage None None 3 12 "watermarked" /\
  image (state (page (snd (App.loadCurrentImage online (world_A false)))))
  = mkImage (Some "Qk1CTQ==") (Some "A/0001.jpg") 0 12 "pending".
Proof.
  split; [reflexivity|]. split; [discriminate|]. split.
  - apply (@loadCurrentImage_whole_or_blank pixels_missing (world_A false) "A");
      [reflexivity | discriminate].
  - apply (@loadCurrentImage_whole_or_blank online (world_A false) "A");
      [reflexivity | discriminate].
Defined.

(** X21.  The index-based [loadCurrentImage] on a rejected fetch: it shows an
    error toast and hides the image in both cases; [state.currentImage]
    keeps its value when the metadata are rejected, and already holds the
    new metadata when only the pixels are rejected. *)
Lemma legacy_loadCurrentImage_rejected env (w : Legacy.W) type :
  Legacy.currentType (Legacy.state (page w)) = Some type ->
  type <> "" ->
  Legacy.isLoading (Legacy.state (page w)) = false ->
  (forall e,
      Remote.getCurrentImage env (tick w) type = Rejected e ->
      Legacy.currentImage (Legacy.state (page (snd (Legacy.loadCurrentImage env w))))
      = Legacy.currentImage (Legacy.state (page w)) /\
      since w (snd (Legacy.loadCurrentImage env w))
      = [Ui ShowLoading; Request true (GetCurrentImage type);
         Toast ("加载图片失败: " ++ e) "error"; Ui HideImage]) /\
  (forall info progress e,
      Remote.getCurrentImage env (tick w) type = Resolved info ->
      Remote.getProgress env (S (tick w)) type = Resolved progress ->
      Remote.getImageBase64 env (S (S (tick w))) type (ImageInfo.index info)
      = Rejected e ->
      Legacy.currentImage (Legacy.state (page (snd (Legacy.loadCurrentImage env w))))
      = Some info /\
      toasts (since w (snd (Legacy.loadCurrentImage env w)))
      = [("加载图片失败: " ++ e, "error")] /\
      In (Ui HideImage) (since w (snd (Legacy.loadCurrentImage env w)))).
Proof.
  intros Hd Hne Hb. split.
  - intros e Hmeta. unfold Legacy.loadCurrentImage. legacy_unfold.
    rewrite Hd. destruct type as [|a s]; [congruence|]. rewrite Hb.
    cbn. rewrite Hmeta. cbn. split; [reflexivity|].
    apply since_app. cbn. rewrite <- !app_assoc. reflexivity.
  - intros info progress e Hmeta Hprog Hpix.
    unfold Legacy.loadCurrentImage. legacy_unfold.
    rewrite Hd. destruct type as [|a s]; [congruence|]. rewrite Hb.
    cbn. rewrite Hmeta. cbn. rewrite Hprog. cbn. rewrite Hpix. cbn.
    split; [reflexivity|].
    erewrite since_app by (cbn; rewrite <- !app_assoc; reflexivity).
    split; [reflexivity|]. cbn. auto 10.
Qed.

(** C4.  A loader that passes its guards raises [isLoading] before its
    first request: the store-based loader first hands every listener the
    state with [isLoading] set, the index-based loaders first show the
    spinner, and then the first request goes out, with the flag set.
    Every request of the loader goes out while the flag is set.  The
    loader returns normally with [isLoading] clear, whichever fetch was
    rejected.  Consequently every handler started while no load is in
    flight ends, however it ends, with [isLoading] clear. *)
Theorem isLoading_cleared :
  (forall env (w : App.W) dataset,
      currentDataset (state (page w)) = Some dataset ->
      dataset <> "" ->
      fst (App.loadCurrentImage env w) = Return tt /\
      (exists rest,
          since w (snd (App.loadCurrentImage env w))
          = (map (fun listener =>
                    Deliver listener
                      (mkState (Some dataset) (datasets (state (page w)))
                               (image (state (page w))) (stats (state (page w)))
                               true))
                 (listeners (page w))
             ++ Request true (GetCurrentImage dataset) :: rest)%list) /\
      issued_while_loading (since w (snd (App.loadCurrentImage env w))) = true /\
      isLoading (state (page (snd (App.loadCurrentImage env w)))) = false) /\
  (forall env (w : Legacy.W) type,
      Legacy.currentType (Legacy.state (page w)) = Some type ->
      type <> "" ->
      Legacy.isLoading (Legacy.state (page w)) = false ->
      fst (Legacy.loadCurrentImage env w) = Return tt /\
      (exists rest,
          since w (snd (Legacy.loadCurrentImage env w))
          = Ui ShowLoading :: Request true (GetCurrentImage type) :: rest) /\
      issued_while_loading (since w (snd (Legacy.loadCurrentImage env w))) = true /\
      Legacy.isLoading (Legacy.state (page (snd (Legacy.loadCurrentImage env w))))
      = false) /\
  (forall env (w : Legacy.W) index type,
      Legacy.currentType (Legacy.state (page w)) = Some type ->
      type <> "" ->
      Legacy.isLoading (Legacy.state (page w)) = false ->
      fst (Legacy.loadImageByIndex index env w) = Return tt /\
      (exists rest,
          since w (snd (Legacy.loadImageByIndex index env w))
          = Ui ShowLoading :: Request true (GetImageByIndex type index) :: rest) /\
      issued_while_loading (since w (snd (Legacy.loadImageByIndex index env w)))
      = true /\
      Legacy.isLoading (Legacy.state (page (snd (Legacy.loadImageByIndex index env w))))
      = false) /\
  (preserves App.idle App.loadCurrentImage /\
   (forall name, preserves App.idle (App.selectDataset name)) /\
   (forall direction, preserves App.idle (App.handleNavigate direction)) /\
   (forall label, preserves App.idle (App.handleAnnotation label)) /\
   preserves App.idle App.handleSkip /\
   preserves App.idle App.handleDelete /\
   preserves App.idle App.handleUndo) /\
  (preserves Legacy.idle Legacy.loadCurrentImage /\
   (forall index, preserves Legacy.idle (Legacy.loadImageByIndex index)) /\
   (forall typeName, preserves Legacy.idle (Legacy.selectType typeName)) /\
   preserves Legacy.idle Legacy.navigateNext /\
   preserves Legacy.idle Legacy.navigatePrev /\
   (forall label, preserves Legacy.idle (Legacy.annotate label)) /\
   preserves Legacy.idle Legacy.skipImage /\
   preserves Legacy.idle Legacy.undoAction /\
   preserves Legacy.idle Legacy.redoAction).
Proof.
  split; [|split; [|split; [|split]]].
  - intros env w dataset Hd Hne.
    pose proof (loadCurrentImage_raises env w Hd Hne) as Hfirst.
    destruct (loadCurrentImage_loads env w Hd Hne)
      as (w' & evs & Hrun & Hlog & Hreq & _ & _ & _ & _ & _ & Hl & _).
    rewrite Hrun in *. cbn [fst snd] in *.
    erewrite since_app in * by exact Hlog. auto.
  - intros env w type Hd Hne Hb.
    assert (Ht : truthy (Legacy.currentType (Legacy.state (page w))) = true)
      by (rewrite Hd; destruct type; [congruence | reflexivity]).
    pose proof (legacy_loadCurrentImage_raises env w Hd Hne Hb) as Hfirst.
    destruct (legacy_loadCurrentImage_loads env w Ht Hb)
      as (w' & evs & Hrun & Hlog & Hreq & _ & Hl).
    rewrite Hrun in *. cbn [fst snd] in *.
    erewrite since_app in * by exact Hlog. auto.
  - intros env w index type Hd Hne Hb.
    assert (Ht : truthy (Legacy.currentType (Legacy.state (page w))) = true)
      by (rewrite Hd; destruct type; [congruence | reflexivity]).
    pose proof (legacy_loadImageByIndex_raises env w index Hd Hne Hb) as Hfirst.
    destruct (legacy_loadImageByIndex_loads env w index Ht Hb)
      as (w' & evs & Hrun & Hlog & Hreq & _ & Hl).
    rewrite Hrun in *. cbn [fst snd] in *.
    erewrite since_app in * by exact Hlog. auto.
  - repeat split;
      auto using idle_loadCurrentImage, idle_selectDataset, idle_handleNavigate,
        idle_handleAnnotation, idle_handleSkip, idle_handleDelete, idle_handleUndo.
  - repeat split;
      auto using legacy_idle_loadCurrentImage, legacy_idle_loadImageByIndex,
        legacy_idle_selectType, legacy_idle_navigateNext, legacy_idle_navigatePrev,
        legacy_idle_annotate, legacy_idle_skipImage, legacy_idle_undoAction,
        legacy_idle_redoAction.
Qed.

Lemma isLoading_cleared_witness :
  currentDataset (state (page (world_A false))) = Some "A" /\
  "A" <> "" /\
  (exists rest,
      since (world_A false) (snd (App.loadCurrentImage offline (world_A false)))
      = Deliver 0 (state_A true) :: Request true (GetCurrentImage "A") :: rest) /\
  isLoading (state (page (snd (App.loadCurrentImage offline (world_A false)))))
  = false /\
  Legacy.currentType (Legacy.state (page (legacy_A false))) = Some "A" /\
  Legacy.isLoading (Legacy.state (page (legacy_A false))) = false /\
  (exists rest,
      since (legacy_A false)
            (snd (Legacy.loadImageByIndex 5 pixels_missing (legacy_A false)))
      = Ui ShowLoading :: Request true (GetImageByIndex "A" 5) :: rest) /\
  Legacy.isLoading
    (Legacy.state (page (snd (Legacy.loadImageByIndex 5 pixels_missing (legacy_A false)))))
  = false.
Proof.
  assert (Hne : "A" <> "") by discriminate.
  destruct (proj1 isLoading_cleared offline (world_A false) "A" eq_refl Hne)
    as (_ & Hfirst & _ & Hclear).
  destruct (proj1 (proj2 (proj2 isLoading_cleared)) pixels_missing (legacy_A false)
                  5 "A" eq_refl Hne eq_refl)
    as (_ & Hfirst' & _ & Hclear').
  split; [reflexivity|]. split; [exact Hne|]. split; [exact Hfirst|].
  split; [exact Hclear|]. split; [reflexivity|]. split; [reflexivity|].
  split; [exact Hfirst' | exact Hclear'].
Defined.

(** ** Undo (C6) *)

Lemma reload_returns env (w : App.W) message type :
  exists w',
    (toast message type ;; App.loadCurrentImage ;; App.updateProgress) env w
    = (Return tt, w').
Proof.
  unfold bind at 1. unfold toast, emit.
  unfold bind.
  match goal with
  | |- context [App.loadCurrentImage env ?W] =>
      destruct (loadCurrentImage_returns env W) as (w1 & evs & Hrun & _)
  end.
  rewrite Hrun.
  destruct (updateProgress_spec env w1) as (w2 & evs2 & Hrun2 & _).
  rewrite Hrun2. eauto.
Qed.

Lemma legacy_reload_returns env (w : Legacy.W) message type :
  exists w',
    (toast message type ;; Legacy.loadCurrentImage ;; Legacy.loadTypes false) env w
    = (Return tt, w').
Proof.
  unfold bind at 1. unfold toast, emit.
  unfold bind.
  match goal with
  | |- context [Legacy.loadCurrentImage env ?W] =>
      destruct (legacy_loadCurrentImage_returns env W) as (w1 & Hrun & _)
  end.
  rewrite Hrun.
  destruct (legacy_loadTypes_returns env w1 false) as (w2 & Hrun2 & _).
  rewrite Hrun2. eauto.
Qed.

(** The run of [handleUndo] on an answer with [success: true] while a
    dataset is selected: what it asks the service, and what it leaves in
    the store. *)
Lemma handleUndo_reloads env (w : App.W) res dataset :
  Remote.undo env (tick w) = Resolved res ->
  Answer.success res = Some true ->
  currentDataset (state (page w)) = Some dataset ->
  dataset <> "" ->
  exists w' evs,
    App.handleUndo env w = (Return tt, w') /\
    log w' = (log w ++ evs)%list /\
    toasts evs = [("撤销成功", "info")] /\
    requests evs
    = (Undo :: GetCurrentImage dataset
         :: match Remote.getCurrentImage env (S (tick w)) dataset with
            | Resolved info => [GetImageBase64 dataset (ImageInfo.index info)]
            | Rejected _ => []
            end
         ++ [GetProgress dataset])%list /\
    currentDataset (state (page w')) = Some dataset /\
    datasets (state (page w')) = datasets (state (page w)) /\
    isLoading (state (page w')) = false /\
    match Remote.getProgress env
            (match Remote.getCurrentImage env (S (tick w)) dataset with
             | Resolved _ => S (S (S (tick w)))
             | Rejected _ => S (S (tick w))
             end) dataset with
    | Resolved progress =>
        image (state (page w'))
        = match App.fetched env (S (tick w)) dataset with
          | Resolved (info, base64) =>
              mkImage (Some base64) (Some (ImageInfo.path info)) (ImageInfo.index info)
                      (Progress.total_images progress) (ImageInfo.status info)
          | Rejected _ =>
              mkImage None None (index (image (state (page w))))
                      (Progress.total_images progress)
                      (status (image (state (page w))))
          end /\
        stats (state (page w'))
        = mkStats (Progress.watermarked_count progress)
                  (Progress.non_watermarked_count progress)
                  (targetWatermarked (stats (state (page w))))
                  (targetNoWatermarked (stats (state (page w))))
    | Rejected _ =>
        image (state (page w'))
        = match App.fetched env (S (tick w)) dataset with
          | Resolved (info, base64) => App.served (image (state (page w))) info base64
          | Rejected _ => App.blank (image (state (page w)))
          end /\
        stats (state (page w')) = stats (state (page w))
    end.
Proof.
  intros Hundo Hok Hd Hne. destruct dataset as [|a s]; [congruence|].
  unfold App.fetched.
  destruct (Remote.getCurrentImage env (S (tick w)) (String a s)) as [info|e] eqn:Hmeta;
    [destruct (Remote.getImageBase64 env (S (S (tick w))) (String a s)
                                     (ImageInfo.index info)) as [base64|e] eqn:Hpix|];
    match goal with
    | |- context [Remote.getProgress env ?n ?d] =>
        destruct (Remote.getProgress env n d) as [progress|e'] eqn:Hprog
    end.
  all: unfold App.handleUndo, App.loadCurrentImage, App.updateProgress; app_unfold.
  all: repeat (progress (cbn; try unfold spreadState, spreadImage, spreadStats, spread;
                         cbn; rewrite ?Hundo, ?Hok, ?Hd, ?Hmeta, ?Hpix, ?Hprog)).
  all: (do 2 eexists); (split; [reflexivity|]);
    (split; [cbn; rewrite <- ?app_assoc; reflexivity|]).
  all: logs; repeat split; reflexivity.
Qed.

(** The same for [undoAction], started while no load is in flight. *)
Lemma undoAction_reloads env (w : Legacy.W) res type :
  Remote.undo env (tick w) = Resolved res ->
  Answer.success res = Some true ->
  Legacy.currentType (Legacy.state (page w)) = Some type ->
  type <> "" ->
  Legacy.isLoading (Legacy.state (page w)) = false ->
  exists w' evs,
    Legacy.undoAction env w = (Return tt, w') /\
    log w' = (log w ++ evs)%list /\
    (exists more, toasts evs = ("已撤销", "info") :: more) /\
    requests evs
    = (Undo :: GetCurrentImage type
         :: match Remote.getCurrentImage env (S (tick w)) type with
            | Resolved info =>
                GetProgress type
                  :: match Remote.getProgress env (S (S (tick w))) type with
                     | Resolved _ => [GetImageBase64 type (ImageInfo.index info)]
                     | Rejected _ => []
                     end
            | Rejected _ => []
            end
         ++ [GetTypes false])%list /\
    Legacy.currentType (Legacy.state (page w')) = Some type /\
    Legacy.isLoading (Legacy.state (page w')) = false /\
    Legacy.currentImage (Legacy.state (page w'))
    = match Remote.getCurrentImage env (S (tick w)) type with
      | Resolved info => Some info
      | Rejected _ => Legacy.currentImage (Legacy.state (page w))
      end /\
    Legacy.currentIndex (Legacy.state (page w'))
    = match Remote.getCurrentImage env (S (tick w)) type with
      | Resolved info => ImageInfo.index info
      | Rejected _ => Legacy.currentIndex (Legacy.state (page w))
      end /\
    Legacy.types (Legacy.state (page w'))
    = match Remote.getTypes env
              (match Remote.getCurrentImage env (S (tick w)) type with
               | Resolved _ =>
                   match Remote.getProgress env (S (S (tick w))) type with
                   | Resolved _ => S (S (S (S (tick w))))
                   | Rejected _ => S (S (S (tick w)))
                   end
               | Rejected _ => S (S (tick w))
               end) false with
      | Resolved types => types
      | Rejected _ => Legacy.types (Legacy.state (page w))
      end.
Proof.
  intros Hundo Hok Hd Hne Hb. destruct type as [|a s]; [congruence|].
  destruct (Remote.getCurrentImage env (S (tick w)) (String a s)) as [info|e] eqn:Hmeta;
    [destruct (Remote.getProgress env (S (S (tick w))) (String a s))
       as [progress|e] eqn:Hprog;
     [destruct (Remote.getImageBase64 env (S (S (S (tick w)))) (String a s)
                                      (ImageInfo.index info)) as [base64|e] eqn:Hpix|]|];
    match goal with
    | |- context [Remote.getTypes env ?n false] =>
        destruct (Remote.getTypes env n false) as [types|e'] eqn:Htypes
    end.
  all: unfold Legacy.undoAction, Legacy.loadCurrentImage, Legacy.loadTypes;
    legacy_unfold.
  all: repeat (progress (cbn; try unfold Legacy.set_isLoading, Legacy.set_currentImage,
                                Legacy.set_currentIndex, Legacy.set_types;
                         cbn;
                         rewrite ?Hundo, ?Hok, ?Hd, ?Hb, ?Hmeta, ?Hprog, ?Hpix, ?Htypes)).
  all: (do 2 eexists); (split; [reflexivity|]);
    (split; [cbn; rewrite <- ?app_assoc; reflexivity|]).
  all: logs; (split; [eexists; reflexivity|]); repeat split; reflexivity.
Qed.

(** C6.  When the service answers [undo] with [success] not true, the
    handler shows the message of the answer as a warning toast and does
    nothing else: the page is the one before the call and [undo] is the
    only request.

    When the answer has [success: true], the handler shows its toast and
    then runs [loadCurrentImage] followed by the progress refresh
    ([updateProgress]; [loadTypes] in the index-based front end).  With a
    dataset selected that is: after [undo] it asks for the current image
    (metadata, then pixels once the metadata are served) and then for the
    progress of the dataset; the image of the store is the one served, or
    blank when a fetch was rejected, with the total of the progress
    served; the counts of the statistics are those of the progress served,
    next to the old targets; a rejected progress leaves total and
    statistics as they were.  In the index-based front end, started while
    no load is in flight: after [undo] it asks for the current image, its
    progress and its pixels, as far as they are served, and then for the
    types with their counts; [state.currentImage] is the metadata served
    and [state.types] is the list served, each left as it was when its
    request was rejected. *)
Theorem handleUndo_reports :
  (forall env (w : App.W) res,
      Remote.undo env (tick w) = Resolved res ->
      Answer.success res <> Some true ->
      App.handleUndo env w =
      (Return tt,
       mkWorld (page w)
               (log w ++ [Request (App.loading (page w)) Undo;
                          Toast (Answer.message res) "warning"])
               (S (tick w)))) /\
  (forall env (w : App.W) res,
      Remote.undo env (tick w) = Resolved res ->
      Answer.success res = Some true ->
      App.handleUndo env w =
      (toast "撤销成功" "info" ;; App.loadCurrentImage ;; App.updateProgress) env
        (mkWorld (page w) (log w ++ [Request (App.loading (page w)) Undo])
                 (S (tick w)))) /\
  (forall env (w : App.W) res dataset,
      Remote.undo env (tick w) = Resolved res ->
      Answer.success res = Some true ->
      currentDataset (state (page w)) = Some dataset ->
      dataset <> "" ->
      fst (App.handleUndo env w) = Return tt /\
      toasts (since w (snd (App.handleUndo env w))) = [("撤销成功", "info")] /\
      requests (since w (snd (App.handleUndo env w)))
      = (Undo :: GetCurrentImage dataset
           :: match Remote.getCurrentImage env (S (tick w)) dataset with
              | Resolved info => [GetImageBase64 dataset (ImageInfo.index info)]
              | Rejected _ => []
              end
           ++ [GetProgress dataset])%list /\
      currentDataset (state (page (snd (App.handleUndo env w)))) = Some dataset /\
      isLoading (state (page (snd (App.handleUndo env w)))) = false /\
      match Remote.getProgress env
              (match Remote.getCurrentImage env (S (tick w)) dataset with
               | Resolved _ => S (S (S (tick w)))
               | Rejected _ => S (S (tick w))
               end) dataset with
      | Resolved progress =>
          image (state (page (snd (App.handleUndo env w))))
          = match App.fetched env (S (tick w)) dataset with
            | Resolved (info, base64) =>
                mkImage (Some base64) (Some (ImageInfo.path info))
                        (ImageInfo.index info)
                        (Progress.total_images progress) (ImageInfo.status info)
            | Rejected _ =>
                mkImage None None (index (image (state (page w))))
                        (Progress.total_images progress)
                        (status (image (state (page w))))
            end /\
          stats (state (page (snd (App.handleUndo env w))))
          = mkStats (Progress.watermarked_count progress)
                    (Progress.non_watermarked_count progress)
                    (targetWatermarked (stats (state (page w))))
                    (targetNoWatermarked (stats (state (page w))))
      | Rejected _ =>
          image (state (page (snd (App.handleUndo env w))))
          = match App.fetched env (S (tick w)) dataset with
            | Resolved (info, base64) =>
                App.served (image (state (page w))) info base64
            | Rejected _ => App.blank (image (state (page w)))
            end /\
          stats (state (page (snd (App.handleUndo env w))))
          = stats (state (page w))
      end) /\
  (forall env (w : Legacy.W) res,
      Remote.undo env (tick w) = Resolved res ->
      Answer.success res <> Some true ->
      Legacy.undoAction env w =
      (Return tt,
       mkWorld (page w)
               (log w ++ [Request (Legacy.loading (page w)) Undo;
                          Toast (Answer.message res) "warning"])
               (S (tick w)))) /\
  (forall env (w : Legacy.W) res,
      Remote.undo env (tick w) = Resolved res ->
      Answer.success res = Some true ->
      Legacy.undoAction env w =
      (toast "已撤销" "info" ;; Legacy.loadCurrentImage ;; Legacy.loadTypes false) env
        (mkWorld (page w) (log w ++ [Request (Legacy.loading (page w)) Undo])
                 (S (tick w)))) /\
  (forall env (w : Legacy.W) res type,
      Remote.undo env (tick w) = Resolved res ->
      Answer.success res = Some true ->
      Legacy.currentType (Legacy.state (page w)) = Some type ->
      type <> "" ->
      Legacy.isLoading (Legacy.state (page w)) = false ->
      fst (Legacy.undoAction env w) = Return tt /\
      (exists more,
          toasts (since w (snd (Legacy.undoAction env w)))
          = ("已撤销", "info") :: more) /\
      requests (since w (snd (Legacy.undoAction env w)))
      = (Undo :: GetCurrentImage type
           :: match Remote.getCurrentImage env (S (tick w)) type with
              | Resolved info =>
                  GetProgress type
                    :: match Remote.getProgress env (S (S (tick w))) type with
                       | Resolved _ => [GetImageBase64 type (ImageInfo.index info)]
                       | Rejected _ => []
                       end
              | Rejected _ => []
              end
           ++ [GetTypes false])%list /\
      Legacy.currentType (Legacy.state (page (snd (Legacy.undoAction env w))))
      = Some type /\
      Legacy.isLoading (Legacy.state (page (snd (Legacy.undoAction env w)))) = false /\
      Legacy.currentImage (Legacy.state (page (snd (Legacy.undoAction env w))))
      = match Remote.getCurrentImage env (S (tick w)) type with
        | Resolved info => Some info
        | Rejected _ => Legacy.currentImage (Legacy.state (page w))
        end /\
      Legacy.currentIndex (Legacy.state (page (snd (Legacy.undoAction env w))))
      = match Remote.getCurrentImage env (S (tick w)) type with
        | Resolved info => ImageInfo.index info
        | Rejected _ => Legacy.currentIndex (Legacy.state (page w))
        end /\
      Legacy.types (Legacy.state (page (snd (Legacy.undoAction env w))))
      = match Remote.getTypes env
                (match Remote.getCurrentImage env (S (tick w)) type with
                 | Resolved _ =>
                     match Remote.getProgress env (S (S (tick w))) type with
                     | Resolved _ => S (S (S (S (tick w))))
                     | Rejected _ => S (S (S (tick w)))
                     end
                 | Rejected _ => S (S (tick w))
                 end) false with
        | Resolved types => types
        | Rejected _ => Legacy.types (Legacy.state (page w))
        end).
Proof.
  split; [|split; [|split; [|split; [|split]]]].
  - intros env w res Hundo Hfail.
    unfold App.handleUndo, try_catch, bind at 1, App.api, await.
    rewrite Hundo.
    destruct (Answer.success res) as [[|]|]; try congruence;
      cbn; rewrite <- app_assoc; reflexivity.
  - intros env w res Hundo Hok.
    unfold App.handleUndo, try_catch, bind at 1, App.api, await.
    rewrite Hundo, Hok.
    match goal with
    | |- context [(toast ?m ?t ;; _ ;; _) env ?W] =>
        destruct (reload_returns env W m t) as (w' & Hrun)
    end.
    rewrite Hrun. reflexivity.
  - intros env w res dataset Hundo Hok Hd Hne.
    destruct (handleUndo_reloads env w Hundo Hok Hd Hne)
      as (w' & evs & Hrun & Hlog & Htoasts & Hreqs & Hd' & _ & Hl & Hstore).
    rewrite Hrun. cbn [fst snd]. erewrite since_app by exact Hlog. auto 7.
  - intros env w res Hundo Hfail.
    unfold Legacy.undoAction, try_catch, bind at 1, Legacy.api, await.
    rewrite Hundo.
    destruct (Answer.success res) as [[|]|]; try congruence;
      cbn; rewrite <- app_assoc; reflexivity.
  - intros env w res Hundo Hok.
    unfold Legacy.undoAction, try_catch, bind at 1, Legacy.api, await.
    rewrite Hundo, Hok.
    match goal with
    | |- context [(toast ?m ?t ;; _ ;; _) env ?W] =>
        destruct (legacy_reload_returns env W m t) as (w' & Hrun)
    end.
    rewrite Hrun. reflexivity.
  - intros env w res type Hundo Hok Hd Hne Hb.
    destruct (undoAction_reloads env w Hundo Hok Hd Hne Hb)
      as (w' & evs & Hrun & Hlog & Htoasts & Hreqs & Hd' & Hl & Himg & Hidx & Htypes).
    rewrite Hrun. cbn [fst snd]. erewrite since_app by exact Hlog. auto 9.
Qed.

Lemma handleUndo_reports_witness :
  (Remote.undo at_the_end (tick (world_A false))
   = Resolved (Answer.mk (Some false) 0 "nothing to undo") /\
   Some false <> Some true /\
   App.handleUndo at_the_end (world_A false) =
   (Return tt,
    mkWorld (store_A false)
            [Request false Undo; Toast "nothing to undo" "warning"] 1)) /\
  (Remote.undo online (tick (world_A false))
   = Resolved (Answer.mk (Some true) 0 "ok") /\
   currentDataset (state (page (world_A false))) = Some "A" /\
   "A" <> "" /\
   requests (since (world_A false) (snd (App.handleUndo online (world_A false))))
   = [Undo; GetCurrentImage "A"; GetImageBase64 "A" 0; GetProgress "A"] /\
   image (state (page (snd (App.handleUndo online (world_A false)))))
   = mkImage (Some "Qk1CTQ==") (Some "A/0001.jpg") 0 7 "pending" /\
   stats (state (page (snd (App.handleUndo online (world_A false)))))
   = mkStats 0 0 5 5) /\
  (Legacy.currentType (Legacy.state (page (legacy_A false))) = Some "A" /\
   Legacy.isLoading (Legacy.state (page (legacy_A false))) = false /\
   requests (since (legacy_A false) (snd (Legacy.undoAction online (legacy_A false))))
   = [Undo; GetCurrentImage "A"; GetProgress "A"; GetImageBase64 "A" 0;
      GetTypes false] /\
   Legacy.currentImage
     (Legacy.state (page (snd (Legacy.undoAction online (legacy_A false)))))
   = Some (first_image "A")).
Proof.
  assert (Hne : "A" <> "") by discriminate.
  destruct handleUndo_reports as (Hfail & _ & Hreload & _ & _ & Hlegacy).
  split; [|split].
  - split; [reflexivity|]. split; [discriminate|].
    apply (Hfail at_the_end (world_A false)
                 (Answer.mk (Some false) 0 "nothing to undo"));
      [reflexivity | discriminate].
  - destruct (Hreload online (world_A false) (Answer.mk (Some true) 0 "ok") "A"
                      eq_refl eq_refl eq_refl Hne)
      as (_ & _ & Hreqs & _ & _ & Himg & Hstats).
    split; [reflexivity|]. split; [reflexivity|]. split; [exact Hne|].
    split; [exact Hreqs|]. split; [exact Himg | exact Hstats].
  - destruct (Hlegacy online (legacy_A false) (Answer.mk (Some true) 0 "ok") "A"
                      eq_refl eq_refl eq_refl Hne eq_refl)
      as (_ & _ & Hreqs & _ & _ & Himg & _).
    split; [reflexivity|]. split; [reflexivity|].
    split; [exact Hreqs | exact Himg].
Defined.

(** ** The guards of navigation (C2) *)

(** X19.  Without a current dataset the navigation handlers of both front ends
    issue no request and leave the page as it is; the index-based
    [loadCurrentImage] also hides the image. *)
Lemma navigation_without_dataset :
  (forall env (w : App.W) direction,
      truthy (currentDataset (state (page w))) = false ->
      App.loadCurrentImage env w = (Return tt, w) /\
      App.handleNavigate direction env w = (Return tt, w)) /\
  (forall env (w : Legacy.W) index,
      truthy (Legacy.currentType (Legacy.state (page w))) = false ->
      Legacy.loadImageByIndex index env w = (Return tt, w) /\
      Legacy.navigateNext env w = (Return tt, w) /\
      Legacy.navigatePrev env w = (Return tt, w) /\
      Legacy.loadCurrentImage env w =
      (Return tt, mkWorld (page w) (log w ++ [Ui HideImage]) (tick w))).
Proof.
  split.
  - intros env w direction Hf. split; [now apply loadCurrentImage_unset|].
    unfold App.handleNavigate. app_unfold.
    destruct (currentDataset (state (page w))) as [[|a s]|];
      try discriminate; reflexivity.
  - intros env w index Hf.
    split; [apply legacy_loadImageByIndex_guarded; now left|].
    split; [|split; [|now apply legacy_loadCurrentImage_unset]].
    + unfold Legacy.navigateNext. legacy_unfold.
      destruct (Legacy.currentType (Legacy.state (page w))) as [[|a s]|];
        try discriminate; reflexivity.
    + unfold Legacy.navigatePrev. legacy_unfold.
      destruct (Legacy.currentType (Legacy.state (page w))) as [[|a s]|];
        try discriminate; reflexivity.
Qed.

(** While a load is in flight, the loaders of the index-based front end
    return at once. *)
Lemma legacy_loaders_while_loading env (w : Legacy.W) index :
  truthy (Legacy.currentType (Legacy.state (page w))) = true ->
  Legacy.isLoading (Legacy.state (page w)) = true ->
  Legacy.loadCurrentImage env w = (Return tt, w) /\
  Legacy.loadImageByIndex index env w = (Return tt, w).
Proof.
  intros Ht Hb. split.
  - now apply legacy_loadCurrentImage_busy.
  - apply legacy_loadImageByIndex_guarded. now right.
Qed.

(** C2, the code at the failing input.  Dataset A is selected and a load
    is in flight ([isLoading] is set).  The store-based [loadCurrentImage]
    and [handleNavigate] do not look at the flag: they issue their requests
    and rewrite the image record, and the flag ends up cleared.  The
    index-based [navigateNext] asks the service to move on before its loader
    refuses to load. *)
Theorem isLoading_not_consulted :
  isLoading (state (page (world_A true))) = true /\
  (requests (log (snd (App.loadCurrentImage online (world_A true))))
   = [GetCurrentImage "A"; GetImageBase64 "A" 0] /\
   isLoading (state (page (snd (App.loadCurrentImage online (world_A true)))))
   = false /\
   image (state (page (snd (App.loadCurrentImage online (world_A true)))))
   = mkImage (Some "Qk1CTQ==") (Some "A/0001.jpg") 0 12 "pending") /\
  (requests (log (snd (App.handleNavigate "next" online (world_A true))))
   = [NavigateNext "A"; GetCurrentImage "A"; GetImageBase64 "A" 0] /\
   isLoading (state (page (snd (App.handleNavigate "next" online (world_A true)))))
   = false) /\
  Legacy.navigateNext online (legacy_A true)
  = (Return tt,
     mkWorld (page (legacy_A true)) [Request true (NavigateNext "A")] 1).
Proof. repeat split; reflexivity. Qed.

(** ** The end of the dataset (C5) *)

(** X20.  The index-based [navigateNext] and [navigatePrev] report the boundary
    with an informational toast and leave the page as it is. *)
Lemma legacy_navigate_boundary env (w : Legacy.W) type res :
  Legacy.currentType (Legacy.state (page w)) = Some type ->
  type <> "" ->
  Answer.success res = Some false ->
  (Remote.navigateNext env (tick w) type = Resolved res ->
   Legacy.navigateNext env w =
   (Return tt,
    mkWorld (page w)
            (log w ++ [Request (Legacy.loading (page w)) (NavigateNext type);
                       Toast "已经是最后一张" "info"])
            (S (tick w)))) /\
  (Remote.navigatePrev env (tick w) type = Resolved res ->
   Legacy.navigatePrev env w =
   (Return tt,
    mkWorld (page w)
            (log w ++ [Request (Legacy.loading (page w)) (NavigatePrev type);
                       Toast "已经是第一张" "info"])
            (S (tick w)))).
Proof.
  intros Hd Hne Hend. split; intros Hnav.
  - unfold Legacy.navigateNext. legacy_unfold. rewrite Hd.
    destruct type as [|a s]; [congruence|].
    rewrite Hnav, Hend. cbn. rewrite <- app_assoc. reflexivity.
  - unfold Legacy.navigatePrev. legacy_unfold. rewrite Hd.
    destruct type as [|a s]; [congruence|].
    rewrite Hnav, Hend. cbn. rewrite <- app_assoc. reflexivity.
Qed.

(** C5, the code at the failing input.  The last image of dataset A is on
    display and the service answers [navigateNext] with [success: false].
    The store-based [handleNavigate] does not read the answer: it shows no
    toast, fetches the current image again and writes the store three
    times; when the file of the image cannot be read, the image on display
    is blanked.  The index-based [navigateNext] on the same answer shows
    its toast and stops. *)
Theorem handleNavigate_ignores_boundary :
  Remote.navigateNext at_the_end 0 "A"
  = Resolved (Answer.mk (Some false) 0 "已经是最后一张") /\
  (toasts (log (snd (App.handleNavigate "next" at_the_end (world_A false)))) = [] /\
   requests (log (snd (App.handleNavigate "next" at_the_end (world_A false))))
   = [NavigateNext "A"; GetCurrentImage "A"; GetImageBase64 "A" 3] /\
   map isLoading
       (snapshots (log (snd (App.handleNavigate "next" at_the_end (world_A false)))))
   = [true; true; false]) /\
  (toasts (log (snd (App.handleNavigate "next" at_the_end_unreadable (world_A false))))
   = [] /\
   image (state (page (snd (App.handleNavigate "next" at_the_end_unreadable
                                               (world_A false)))))
   = mkImage None None 3 12 "watermarked") /\
  Legacy.navigateNext at_the_end (legacy_A false)
  = (Return tt,
     mkWorld (page (legacy_A false))
             [Request false (NavigateNext "A"); Toast "已经是最后一张" "info"] 1).
Proof. repeat split; reflexivity. Qed.

(** ** Acting with nothing selected (C8) *)

(** X18.  With no dataset or no image, no handler issues a request or touches
    the page.  [handleAnnotation] and the index-based [annotate] and
    [skipImage] show a warning toast; [handleSkip] and [handleDelete] show
    nothing. *)
Lemma nothing_selected :
  (forall env (w : App.W) label,
      truthy (currentDataset (state (page w))) = false \/
      truthy (path (image (state (page w)))) = false ->
      App.handleAnnotation label env w =
      (Return tt,
       mkWorld (page w)
               (log w ++ [Ui (HighlightButton (if Z.eqb label 1 then "btn-watermarked"
                                               else "btn-no-watermarked"));
                          Toast "请先选择数据类型" "warning"])
               (tick w)) /\
      App.handleSkip env w =
      (Return tt,
       mkWorld (page w) (log w ++ [Ui (HighlightButton "btn-skip")]) (tick w)) /\
      App.handleDelete env w = (Return tt, w)) /\
  (forall env (w : Legacy.W) label,
      truthy (Legacy.currentType (Legacy.state (page w))) = false \/
      Legacy.currentImage (Legacy.state (page w)) = None ->
      Legacy.annotate label env w =
      (Return tt,
       mkWorld (page w) (log w ++ [Toast "请先选择数据类型和图片" "warning"]) (tick w)) /\
      Legacy.skipImage env w =
      (Return tt,
       mkWorld (page w) (log w ++ [Toast "请先选择数据类型和图片" "warning"]) (tick w))).
Proof.
  split.
  - intros env w label Hnone.
    unfold App.handleAnnotation, App.handleSkip, App.handleDelete. app_unfold.
    cbn [page log tick].
    destruct (currentDataset (state (page w))) as [[|a s]|];
      destruct (path (image (state (page w)))) as [[|b q]|];
      try (destruct Hnone; discriminate);
      repeat split; cbn; rewrite <- ?app_assoc; reflexivity.
  - intros env w label Hnone.
    unfold Legacy.annotate, Legacy.skipImage. legacy_unfold.
    destruct (Legacy.currentType (Legacy.state (page w))) as [[|a s]|];
      destruct (Legacy.currentImage (Legacy.state (page w))) as [i|];
      try (destruct Hnone; discriminate);
      repeat split; reflexivity.
Qed.

(** C8, the code at the failing input.  On a fresh page, with no dataset
    and no image, [handleSkip] only highlights its button and
    [handleDelete] does nothing at all: neither reports that nothing is
    selected, while [handleAnnotation] on the same page does. *)
Theorem handleSkip_handleDelete_silent :
  currentDataset (state (page world_0)) = None /\
  App.handleSkip online world_0
  = (Return tt, mkWorld (page world_0) [Ui (HighlightButton "btn-skip")] 0) /\
  App.handleDelete online world_0 = (Return tt, world_0) /\
  App.handleAnnotation 1 online world_0
  = (Return tt,
     mkWorld (page world_0)
             [Ui (HighlightButton "btn-watermarked"); Toast "请先选择数据类型" "warning"]
             0).
Proof. repeat split; reflexivity. Qed.

End Claims.

(** * Further properties of the front ends *)

(** ** Handlers end normally *)

Section ReturnFacts.
Variables Page Snap : Type.
Local Open Scope handler_scope.

Lemma returns_ret A (a : A) : returns (Page := Page) (Snap := Snap) (ret a).
Proof. intros env w. now exists a. Qed.

Lemma returns_emit (es : list (Event Snap)) : returns (Page := Page) (emit es).
Proof. intros env w. now exists tt. Qed.

Lemma returns_toast (message type : string) :
  returns (Page := Page) (Snap := Snap) (toast message type).
Proof. apply returns_emit. Qed.

Lemma returns_ui (c : UiCall) : returns (Page := Page) (Snap := Snap) (ui c).
Proof. apply returns_emit. Qed.

Lemma returns_ask (message : string) :
  returns (Page := Page) (Snap := Snap) (ask message).
Proof. intros env w. eexists. reflexivity. Qed.

Lemma returns_get_page : returns (Page := Page) (Snap := Snap) get_page.
Proof. intros env w. eexists. reflexivity. Qed.

Lemma returns_modify_page (f : Page -> Page) :
  returns (Snap := Snap) (modify_page f).
Proof. intros env w. now exists tt. Qed.

Lemma returns_bind A B (m : M Page Snap A) (k : A -> M Page Snap B) :
  returns m -> (forall a, returns (k a)) -> returns (x <- m ;; k x).
Proof.
  intros Hm Hk env w. unfold bind.
  destruct (Hm env w) as (a & Ha).
  destruct (m env w) as [o w']. cbn in Ha. subst o. apply Hk.
Qed.

(** A [try] block with a handler that returns cannot throw, whatever its
    body does. *)
Lemma returns_try_catch A (body : M Page Snap A) (handler : string -> M Page Snap A) :
  (forall e, returns (handler e)) -> returns (try_catch body handler).
Proof.
  intros Hh env w. unfold try_catch.
  destruct (body env w) as [[a|e] w'].
  - now exists a.
  - apply Hh.
Qed.

Lemma returns_finally A (body : M Page Snap A) (fin : M Page Snap unit) :
  returns body -> returns fin -> returns (finally body fin).
Proof.
  intros Hb Hf env w. unfold finally.
  destruct (Hb env w) as (a & Ha).
  destruct (body env w) as [o w']. cbn in Ha. subst o.
  destruct (Hf env w') as ([] & Hu).
  destruct (fin env w') as [o w'']. cbn in Hu. subst o. now exists a.
Qed.

(** When the body returns, the handler of a [try] block is not run. *)
Lemma try_catch_returned A (body : M Page Snap A) (handler : string -> M Page Snap A)
      env w :
  (exists a, fst (body env w) = Return a) ->
  try_catch body handler env w = body env w.
Proof.
  intros (a & Ha). unfold try_catch.
  destruct (body env w) as [o w']. cbn in Ha. now subst o.
Qed.

End ReturnFacts.

Ltac ends known :=
  cbv zeta;
  repeat first
    [ known
    | apply returns_ret | apply returns_toast | apply returns_ui
    | apply returns_ask | apply returns_get_page | apply returns_modify_page
    | apply returns_emit
    | apply returns_try_catch; intros ?
    | apply returns_finally
    | apply returns_bind; [|intros ?]
    | match goal with
      | |- returns (match ?x with _ => _ end) => destruct x
      | |- returns (if ?b then _ else _) => destruct b
      end ].

Section AppReturns.
Import Store.
Local Open Scope handler_scope.

Lemma returns_store (method : Store.t -> Store.t * list (Event State)) :
  returns (App.store method).
Proof. intros env w. now exists tt. Qed.

Lemma returns_getState : returns App.getState.
Proof. intros env w. eexists. reflexivity. Qed.

Lemma returns_loadCurrentImage : returns App.loadCurrentImage.
Proof.
  unfold App.loadCurrentImage.
  ends ltac:(first [apply returns_store | apply returns_getState]).
Qed.

Lemma returns_updateProgress : returns App.updateProgress.
Proof.
  unfold App.updateProgress.
  ends ltac:(first [apply returns_store | apply returns_getState]).
Qed.

Ltac app_ends :=
  ends ltac:(first [ apply returns_loadCurrentImage | apply returns_updateProgress
                   | apply returns_store | apply returns_getState ]).

(** X1.  No handler of the store-based front end ends with an uncaught
    error, whatever the service answers and whatever the page holds: each
    call that can be rejected sits in a [try] block whose handler only
    shows a toast or writes the store. *)
Theorem app_handlers_return :
  returns App.refreshDatasets /\
  returns App.loadCurrentImage /\
  returns App.updateProgress /\
  (forall name, returns (App.selectDataset name)) /\
  (forall label, returns (App.handleAnnotation label)) /\
  returns App.handleSkip /\
  returns App.handleDelete /\
  (forall direction, returns (App.handleNavigate direction)) /\
  returns App.handleUndo.
Proof.
  repeat apply conj; try intros ?.
  - unfold App.refreshDatasets. app_ends.
  - apply returns_loadCurrentImage.
  - apply returns_updateProgress.
  - unfold App.selectDataset. app_ends.
  - unfold App.handleAnnotation. app_ends.
  - unfold App.handleSkip. app_ends.
  - unfold App.handleDelete. app_ends.
  - unfold App.handleNavigate. app_ends.
  - unfold App.handleUndo. app_ends.
Qed.

End AppReturns.

Section LegacyReturns.
Local Open Scope handler_scope.

Lemma returns_assign (f : Legacy.State -> Legacy.State) : returns (Legacy.assign f).
Proof. intros env w. now exists tt. Qed.

Lemma returns_legacy_getState : returns Legacy.getState.
Proof. intros env w. eexists. reflexivity. Qed.

Ltac legacy_base := first [apply returns_assign | apply returns_legacy_getState].

Lemma returns_legacy_loadCurrentImage : returns Legacy.loadCurrentImage.
Proof. unfold Legacy.loadCurrentImage. ends legacy_base. Qed.

Lemma returns_legacy_loadImageByIndex index : returns (Legacy.loadImageByIndex index).
Proof. unfold Legacy.loadImageByIndex. ends legacy_base. Qed.

Lemma returns_legacy_loadTypes skipScan : returns (Legacy.loadTypes skipScan).
Proof. unfold Legacy.loadTypes. ends legacy_base. Qed.

(** X2.  No handler of the index-based front end ends with an uncaught
    error, whatever the service answers and whatever the page holds. *)
Theorem legacy_handlers_return :
  (forall skipScan, returns (Legacy.loadTypes skipScan)) /\
  (forall typeName, returns (Legacy.selectType typeName)) /\
  returns Legacy.loadCurrentImage /\
  (forall index, returns (Legacy.loadImageByIndex index)) /\
  (forall label, returns (Legacy.annotate label)) /\
  returns Legacy.skipImage /\
  returns Legacy.navigateNext /\
  returns Legacy.navigatePrev /\
  returns Legacy.undoAction /\
  returns Legacy.redoAction.
Proof.
  repeat apply conj; try intros ?.
  - apply returns_legacy_loadTypes.
  - unfold Legacy.selectType.
    ends ltac:(first [apply returns_legacy_loadCurrentImage | legacy_base]).
  - apply returns_legacy_loadCurrentImage.
  - apply returns_legacy_loadImageByIndex.
  - unfold Legacy.annotate. ends legacy_base.
  - unfold Legacy.skipImage. ends legacy_base.
  - unfold Legacy.navigateNext. ends legacy_base.
  - unfold Legacy.navigatePrev. ends legacy_base.
  - unfold Legacy.undoAction. ends legacy_base.
  - unfold Legacy.redoAction. ends legacy_base.
Qed.

End LegacyReturns.

(** ** Progress and the actions of the store-based front end *)

Section AppExtras.
Import Store Fixtures.
Local Open Scope handler_scope.
Implicit Types (env : Env) (w : App.W).

(** [loadCurrentImage] keeps the statistics; [updateProgress] keeps the
    targets. *)
Lemma loadCurrentImage_stats env w :
  exists w',
    App.loadCurrentImage env w = (Return tt, w') /\
    stats (state (page w')) = stats (state (page w)).
Proof.
  destruct (truthy (currentDataset (state (page w)))) eqn:Ht.
  - destruct (currentDataset (state (page w))) as [dataset|] eqn:Hd;
      [|discriminate].
    assert (Hne : dataset <> "") by (intros ->; discriminate).
    destruct (loadCurrentImage_loads env w Hd Hne)
      as (w' & evs & Hrun & _ & _ & _ & _ & _ & _ & Hs & _).
    exists w'. auto.
  - exists w. rewrite (loadCurrentImage_unset env w Ht). auto.
Qed.

Lemma updateProgress_targets env w :
  exists w',
    App.updateProgress env w = (Return tt, w') /\
    targetWatermarked (stats (state (page w')))
    = targetWatermarked (stats (state (page w))) /\
    targetNoWatermarked (stats (state (page w')))
    = targetNoWatermarked (stats (state (page w))).
Proof.
  unfold App.updateProgress. app_unfold.
  destruct (currentDataset (state (page w))) as [[|a s]|].
  1, 3: exists w; repeat split.
  answers; eexists; repeat split.
Qed.

(** X3.  With a current dataset, [updateProgress] copies what the service
    reports: the two counters and the total of the image record become the
    served values, while the targets, the other image fields, the current
    dataset and the loading flag stay.  When the request is rejected the
    page is left as it is and nothing is shown. *)
Theorem updateProgress_reconciles env w dataset :
  currentDataset (state (page w)) = Some dataset ->
  dataset <> "" ->
  fst (App.updateProgress env w) = Return tt /\
  requests (since w (snd (App.updateProgress env w))) = [GetProgress dataset] /\
  toasts (since w (snd (App.updateProgress env w))) = [] /\
  match Remote.getProgress env (tick w) dataset with
  | Resolved progress =>
      state (page (snd (App.updateProgress env w))) =
      mkState (Some dataset) (datasets (state (page w)))
              (mkImage (data (image (state (page w))))
                       (path (image (state (page w))))
                       (index (image (state (page w))))
                       (Progress.total_images progress)
                       (status (image (state (page w)))))
              (mkStats (Progress.watermarked_count progress)
                       (Progress.non_watermarked_count progress)
                       (targetWatermarked (stats (state (page w))))
                       (targetNoWatermarked (stats (state (page w)))))
              (isLoading (state (page w)))
  | Rejected _ => page (snd (App.updateProgress env w)) = page w
  end.
Proof.
  intros Hd Hne. unfold App.updateProgress. app_unfold.
  rewrite Hd. destruct dataset as [|a s]; [congruence|].
  answers; cbn [fst snd page];
    (split; [reflexivity|]);
    (erewrite since_app by (cbn; rewrite <- ?app_assoc; reflexivity));
    logs; repeat split;
    unfold spreadState, spreadImage, spreadStats, spread; cbn;
    rewrite ?Hd; reflexivity.
Qed.

Lemma updateProgress_reconciles_witness :
  currentDataset (state (page (world_A false))) = Some "A" /\
  "A" <> "" /\
  stats (state (page (snd (App.updateProgress at_the_end (world_A false)))))
  = mkStats 3 1 5 5 /\
  total (image (state (page (snd (App.updateProgress at_the_end (world_A false))))))
  = 12.
Proof.
  split; [reflexivity|]. split; [discriminate|].
  destruct (@updateProgress_reconciles at_the_end (world_A false) "A" eq_refl)
    as (_ & _ & _ & Hstate); [discriminate|].
  change (Remote.getProgress at_the_end (tick (world_A false)) "A")
    with (Resolved (Progress.mk 12 4 3 1)) in Hstate.
  cbv beta iota in Hstate. rewrite Hstate. split; reflexivity.
Defined.

(** The run of [loadCurrentImage] followed by [updateProgress] returns. *)
Lemma reload_and_refresh_returns env w :
  exists a, fst ((App.loadCurrentImage ;; App.updateProgress) env w) = Return a.
Proof.
  apply returns_bind; [apply returns_loadCurrentImage|].
  intros ?. apply returns_updateProgress.
Qed.

(** X4.  [handleAnnotation] with a dataset and an image selected sends the
    annotation of the displayed path first.  When that request is rejected
    it shows the message of the service and stops: nothing else is
    requested and the page is as before.  When it is accepted but the
    move to the next image is rejected, the page is also as before, so
    the annotated image stays on display.  Only when both are accepted
    does it reload the current image and refresh the progress. *)
Theorem handleAnnotation_commits_first env w label dataset imagePath :
  currentDataset (state (page w)) = Some dataset -> dataset <> "" ->
  path (image (state (page w))) = Some imagePath -> imagePath <> "" ->
  let button := Ui (HighlightButton (if Z.eqb label 1 then "btn-watermarked"
                                     else "btn-no-watermarked")) in
  let create := Request (App.loading (page w))
                        (CreateAnnotation imagePath label dataset) in
  let marked := Toast ("已标记: " ++ (if Z.eqb label 1 then "有水印" else "无水印"))
                      (if Z.eqb label 1 then "error" else "success") in
  let next := Request (App.loading (page w)) (NavigateNext dataset) in
  match Remote.createAnnotation env (tick w) imagePath label dataset with
  | Rejected e =>
      App.handleAnnotation label env w =
      (Return tt,
       mkWorld (page w)
               (log w ++ [button; create; Toast ("操作失败: " ++ e) "error"])
               (S (tick w)))
  | Resolved _ =>
      match Remote.navigateNext env (S (tick w)) dataset with
      | Rejected e =>
          App.handleAnnotation label env w =
          (Return tt,
           mkWorld (page w)
                   (log w ++ [button; create; marked; next;
                              Toast ("操作失败: " ++ e) "error"])
                   (S (S (tick w))))
      | Resolved _ =>
          App.handleAnnotation label env w =
          (App.loadCurrentImage ;; App.updateProgress) env
            (mkWorld (page w) (log w ++ [button; create; marked; next])
                     (S (S (tick w))))
      end
  end.
Proof.
  intros Hd Hne Hp Hpne. cbv zeta.
  unfold App.handleAnnotation. app_unfold.
  cbn -[App.loadCurrentImage App.updateProgress append].
  rewrite Hd, Hp.
  destruct dataset as [|a s]; [congruence|].
  destruct imagePath as [|b q]; [congruence|].
  cbn -[App.loadCurrentImage App.updateProgress append].
  destruct (Remote.createAnnotation env (tick w) (String b q) label (String a s));
    cbn -[App.loadCurrentImage App.updateProgress append];
    [|rewrite <- !app_assoc; reflexivity].
  destruct (Remote.navigateNext env (S (tick w)) (String a s));
    cbn -[App.loadCurrentImage App.updateProgress append];
    [|rewrite <- !app_assoc; reflexivity].
  rewrite <- !app_assoc. cbn [app].
  match goal with
  | |- context [App.loadCurrentImage env ?W] =>
      destruct (returns_loadCurrentImage env W) as ([] & Hret);
      destruct (App.loadCurrentImage env W) as [o w1]; cbn in Hret; subst o
  end.
  destruct (returns_updateProgress env w1) as ([] & Hret).
  destruct (App.updateProgress env w1) as [o w2]. cbn in Hret. subst o.
  reflexivity.
Qed.

Lemma handleAnnotation_commits_first_witness :
  currentDataset (state (page (world_A false))) = Some "A" /\
  path (image (state (page (world_A false)))) = Some "A/0004.jpg" /\
  App.handleAnnotation 1 offline (world_A false) =
  (Return tt,
   mkWorld (store_A false)
           [Ui (HighlightButton "btn-watermarked");
            Request false (CreateAnnotation "A/0004.jpg" 1 "A");
            Toast "操作失败: Network Error" "error"] 1).
Proof.
  split; [reflexivity|]. split; [reflexivity|].
  apply (@handleAnnotation_commits_first offline (world_A false) 1 "A" "A/0004.jpg");
    [reflexivity | discriminate | reflexivity | discriminate].
Defined.

(** X5.  [handleSkip] with a dataset and an image selected sends the skip
    of the displayed path first.  When the skip or the move to the next
    image is rejected, it shows the message of the service and leaves the
    page as it is.  When both are accepted it reloads the current image,
    and it does not refresh the progress. *)
Theorem handleSkip_commits_first env w dataset imagePath :
  currentDataset (state (page w)) = Some dataset -> dataset <> "" ->
  path (image (state (page w))) = Some imagePath -> imagePath <> "" ->
  let button := Ui (HighlightButton "btn-skip") in
  let skip := Request (App.loading (page w)) (SkipImage imagePath dataset) in
  let next := Request (App.loading (page w)) (NavigateNext dataset) in
  match Remote.skipImage env (tick w) imagePath dataset with
  | Rejected e =>
      App.handleSkip env w =
      (Return tt,
       mkWorld (page w)
               (log w ++ [button; skip; Toast ("跳过失败: " ++ e) "error"])
               (S (tick w)))
  | Resolved _ =>
      match Remote.navigateNext env (S (tick w)) dataset with
      | Rejected e =>
          App.handleSkip env w =
          (Return tt,
           mkWorld (page w)
                   (log w ++ [button; skip; Toast "已跳过" "info"; next;
                              Toast ("跳过失败: " ++ e) "error"])
                   (S (S (tick w))))
      | Resolved _ =>
          App.handleSkip env w =
          App.loadCurrentImage env
            (mkWorld (page w) (log w ++ [button; skip; Toast "已跳过" "info"; next])
                     (S (S (tick w))))
      end
  end.
Proof.
  intros Hd Hne Hp Hpne. cbv zeta.
  unfold App.handleSkip. app_unfold.
  cbn -[App.loadCurrentImage append].
  rewrite Hd, Hp.
  destruct dataset as [|a s]; [congruence|].
  destruct imagePath as [|b q]; [congruence|].
  cbn -[App.loadCurrentImage append].
  destruct (Remote.skipImage env (tick w) (String b q) (String a s));
    cbn -[App.loadCurrentImage append];
    [|rewrite <- !app_assoc; reflexivity].
  destruct (Remote.navigateNext env (S (tick w)) (String a s));
    cbn -[App.loadCurrentImage append];
    [|rewrite <- !app_assoc; reflexivity].
  rewrite <- !app_assoc. cbn [app].
  match goal with
  | |- context [App.loadCurrentImage env ?W] =>
      destruct (returns_loadCurrentImage env W) as ([] & Hret);
      destruct (App.loadCurrentImage env W) as [o w1]; cbn in Hret; subst o
  end.
  reflexivity.
Qed.

Lemma handleSkip_commits_first_witness :
  currentDataset (state (page (world_A false))) = Some "A" /\
  path (image (state (page (world_A false)))) = Some "A/0004.jpg" /\
  App.handleSkip offline (world_A false) =
  (Return tt,
   mkWorld (store_A false)
           [Ui (HighlightButton "btn-skip");
            Request false (SkipImage "A/0004.jpg" "A");
            Toast "跳过失败: Network Error" "error"] 1).
Proof.
  split; [reflexivity|]. split; [reflexivity|].
  apply (@handleSkip_commits_first offline (world_A false) "A" "A/0004.jpg");
    [reflexivity | discriminate | reflexivity | discriminate].
Defined.

(** X6.  [handleDelete] with a dataset and an image selected asks the
    operator before anything else.  When the operator declines, no request
    is sent and the page is as before.  When the operator accepts and the
    deletion is rejected, the message of the service is shown and the page
    is as before.  When the deletion is accepted, the current image is
    reloaded and the progress refreshed. *)
Theorem handleDelete_asks_first env w dataset imagePath :
  currentDataset (state (page w)) = Some dataset -> dataset <> "" ->
  path (image (state (page w))) = Some imagePath -> imagePath <> "" ->
  let question := "确定要从磁盘删除这张图片吗？此操作不可恢复。" in
  let delete := Request (App.loading (page w)) (DeleteImage dataset imagePath) in
  if Remote.confirm env (tick w) question then
    match Remote.deleteImage env (S (tick w)) dataset imagePath with
    | Rejected e =>
        App.handleDelete env w =
        (Return tt,
         mkWorld (page w)
                 (log w ++ [Confirm question true; delete;
                            Toast ("删除失败: " ++ e) "error"])
                 (S (S (tick w))))
    | Resolved _ =>
        App.handleDelete env w =
        (App.loadCurrentImage ;; App.updateProgress) env
          (mkWorld (page w)
                   (log w ++ [Confirm question true; delete;
                              Toast "图片已删除" "success"])
                   (S (S (tick w))))
    end
  else
    App.handleDelete env w =
    (Return tt,
     mkWorld (page w) (log w ++ [Confirm question false]) (S (tick w))).
Proof.
  intros Hd Hne Hp Hpne. cbv zeta.
  unfold App.handleDelete. app_unfold.
  cbn -[App.loadCurrentImage App.updateProgress append].
  rewrite Hd, Hp.
  destruct dataset as [|a s]; [congruence|].
  destruct imagePath as [|b q]; [congruence|].
  cbn -[App.loadCurrentImage App.updateProgress append].
  destruct (Remote.confirm env (tick w) _);
    cbn -[App.loadCurrentImage App.updateProgress append]; [|reflexivity].
  destruct (Remote.deleteImage env (S (tick w)) (String a s) (String b q));
    cbn -[App.loadCurrentImage App.updateProgress append];
    [|rewrite <- !app_assoc; reflexivity].
  rewrite <- !app_assoc. cbn [app].
  match goal with
  | |- context [App.loadCurrentImage env ?W] =>
      destruct (returns_loadCurrentImage env W) as ([] & Hret);
      destruct (App.loadCurrentImage env W) as [o w1]; cbn in Hret; subst o
  end.
  destruct (returns_updateProgress env w1) as ([] & Hret).
  destruct (App.updateProgress env w1) as [o w2]. cbn in Hret. subst o.
  reflexivity.
Qed.

Lemma handleDelete_asks_first_witness :
  currentDataset (state (page (world_A false))) = Some "A" /\
  path (image (state (page (world_A false)))) = Some "A/0004.jpg" /\
  App.handleDelete offline (world_A false) =
  (Return tt,
   mkWorld (store_A false)
           [Confirm "确定要从磁盘删除这张图片吗？此操作不可恢复。" true;
            Request false (DeleteImage "A" "A/0004.jpg");
            Toast "删除失败: Network Error" "error"] 2).
Proof.
  split; [reflexivity|]. split; [reflexivity|].
  apply (@handleDelete_asks_first offline (world_A false) "A" "A/0004.jpg");
    [reflexivity | discriminate | reflexivity | discriminate].
Defined.

(** X8.  The targets shown after [selectDataset(name)] on another dataset
    come from the first dataset of the list called [name]: absent fields
    count as 0.  When no dataset of the list has that name, or it has no
    [target_count], the targets of the dataset selected before stay in the
    statistics. *)
Theorem selectDataset_targets env w name :
  strict_eq (currentDataset (state (page w))) name = false ->
  let after := stats (state (page (snd (App.selectDataset name env w)))) in
  match find (fun d => String.eqb (Dataset.name d) name) (datasets (state (page w))) with
  | Some dataset =>
      match Dataset.target_count dataset with
      | Some target =>
          targetWatermarked after = or0 (Counts.watermarked target) /\
          targetNoWatermarked after = or0 (Counts.non_watermarked target)
      | None =>
          targetWatermarked after = targetWatermarked (stats (state (page w))) /\
          targetNoWatermarked after = targetNoWatermarked (stats (state (page w)))
      end
  | None =>
      targetWatermarked after = targetWatermarked (stats (state (page w))) /\
      targetNoWatermarked after = targetNoWatermarked (stats (state (page w)))
  end.
Proof.
  intros Hother. cbv zeta.
  unfold App.selectDataset. app_unfold. rewrite Hother.
  cbn [page log tick].
  cbn -[App.loadCurrentImage App.updateProgress updateDataset updateStats find].
  change (datasets (state (fst (updateDataset name (page w)))))
    with (datasets (state (page w))).
  destruct (find _ (datasets (state (page w)))) as [[n [tc|] cc pr an ti]|];
    cbn -[App.loadCurrentImage App.updateProgress updateDataset updateStats];
    match goal with
    | |- context [App.loadCurrentImage env ?W] =>
        destruct (loadCurrentImage_stats env W) as (w3 & Hrun3 & Hs3);
        rewrite Hrun3;
        destruct (updateProgress_targets env w3) as (w4 & Hrun4 & Ht4 & Hn4);
        rewrite Hrun4; cbn [snd]; rewrite Ht4, Hn4, Hs3
    end;
    split; reflexivity.
Qed.

Lemma selectDataset_targets_witness :
  strict_eq (currentDataset (state (page (world_A false)))) "B" = false /\
  find (fun d => String.eqb (Dataset.name d) "B")
       (datasets (state (page (world_A false)))) = Some dataset_B /\
  Dataset.target_count dataset_B = None /\
  targetWatermarked (stats (state (page (snd (App.selectDataset "B" online
                                                                 (world_A false))))))
  = 5.
Proof.
  split; [reflexivity|]. split; [reflexivity|]. split; [reflexivity|].
  apply (@selectDataset_targets online (world_A false) "B" eq_refl).
Defined.

End AppExtras.

(** ** Subscribers of the store *)

Section SubscriberFacts.
Import Store.

Lemma existsb_eqb_In (listener : nat) (ls : list nat) :
  existsb (Nat.eqb listener) ls = true <-> In listener ls.
Proof.
  rewrite existsb_exists. split.
  - intros (x & Hin & Heq). apply Nat.eqb_eq in Heq. now subst.
  - intros Hin. exists listener. split; [exact Hin | apply Nat.eqb_refl].
Qed.

Lemma filter_absent (listener : nat) (ls : list nat) :
  ~ In listener ls ->
  filter (fun l => negb (Nat.eqb listener l)) ls = ls.
Proof.
  induction ls as [|x ls IH]; cbn; [reflexivity|].
  intros Hnot. destruct (Nat.eqb_spec listener x) as [->|Hne]; cbn.
  - exfalso. apply Hnot. now left.
  - f_equal. apply IH. intros Hin. apply Hnot. now right.
Qed.

Lemma filter_none (f : nat -> bool) (ls : list nat) :
  (forall y, In y ls -> f y = false) -> filter f ls = [].
Proof.
  induction ls as [|x ls IH]; cbn; [reflexivity|].
  intros H. rewrite (H x) by now left. apply IH. intros y Hy. apply H. now right.
Qed.

Lemma received_deliveries (who : nat) (s : State) (ls : list nat) :
  received who (map (fun listener => Deliver listener s) ls)
  = map (fun _ => s) (filter (fun l => Nat.eqb l who) ls).
Proof.
  induction ls as [|x ls IH]; cbn; [reflexivity|].
  destruct (Nat.eqb x who); cbn; now rewrite IH.
Qed.

Lemma filter_eqb_NoDup (who : nat) (ls : list nat) :
  NoDup ls -> In who ls -> filter (fun l => Nat.eqb l who) ls = [who].
Proof.
  induction 1 as [|x ls Hx Hnd IH]; cbn; [intros []|].
  intros [->|Hin].
  - rewrite Nat.eqb_refl. f_equal.
    apply filter_none.
    intros y Hy. apply Nat.eqb_neq. intros ->. contradiction.
  - destruct (Nat.eqb_spec x who) as [->|Hne]; [contradiction|]. now apply IH.
Qed.

(** X9.  The listeners of the store form a set kept in subscription
    order: subscribing a listener a second time changes nothing, a list
    without repetition stays so, unsubscribing removes the listener and
    undoes the subscription of a listener that was new; neither touches
    the state. *)
Theorem subscribe_is_a_set (st : Store.t) (listener : nat) :
  subscribe listener (subscribe listener st) = subscribe listener st /\
  In listener (listeners (subscribe listener st)) /\
  (NoDup (listeners st) -> NoDup (listeners (subscribe listener st))) /\
  ~ In listener (listeners (unsubscribe listener st)) /\
  (~ In listener (listeners st) ->
   unsubscribe listener (subscribe listener st) = st) /\
  state (subscribe listener st) = state st /\
  state (unsubscribe listener st) = state st.
Proof.
  unfold subscribe, unsubscribe.
  destruct (existsb (Nat.eqb listener) (listeners st)) eqn:E.
  - pose proof (proj1 (existsb_eqb_In listener (listeners st)) E) as Hin.
    rewrite E. repeat split; auto.
    + cbn. intros H. apply filter_In in H. destruct H as (_ & H).
      now rewrite Nat.eqb_refl in H.
    + intros Hnot. contradiction.
  - assert (Hnot : ~ In listener (listeners st)).
    { intros Hin. apply existsb_eqb_In in Hin. congruence. }
    cbn. rewrite existsb_app, E. cbn. rewrite Nat.eqb_refl. cbn.
    repeat split.
    + apply in_or_app. right. now left.
    + intros Hnd. apply NoDup_app; [exact Hnd | repeat constructor; intros [] |].
      intros x Hx [<-|[]]. contradiction.
    + intros H. apply filter_In in H. destruct H as (_ & H).
      now rewrite Nat.eqb_refl in H.
    + intros _. rewrite filter_app, filter_absent by exact Hnot. cbn.
      rewrite Nat.eqb_refl. cbn. rewrite app_nil_r. now destruct st.
Qed.

Lemma subscribe_is_a_set_witness :
  NoDup (listeners create) /\
  ~ In 7%nat (listeners create) /\
  NoDup (listeners (subscribe 7 create)) /\
  unsubscribe 7 (subscribe 7 create) = create.
Proof.
  assert (Hnd : NoDup (listeners create)) by constructor.
  assert (Hnot : ~ In 7%nat (listeners create)) by (intros []).
  destruct (subscribe_is_a_set create 7) as (_ & _ & Hkeep & _ & Hundo & _).
  repeat split; auto.
Defined.

(** X10.  Every update of the store calls each subscriber exactly once
    with the new state: a listener that subscribed receives the merged
    state once, even when it subscribed twice, and a listener that
    unsubscribed receives nothing. *)
Theorem setState_calls_each_once (st : Store.t) (p : StatePatch) (listener : nat) :
  NoDup (listeners st) ->
  received listener (snd (setState p (subscribe listener st)))
  = [spreadState (state st) p] /\
  received listener (snd (setState p (subscribe listener (subscribe listener st))))
  = [spreadState (state st) p] /\
  received listener (snd (setState p (unsubscribe listener st))) = [].
Proof.
  intros Hnd.
  destruct (subscribe_is_a_set st listener)
    as (Hidem & Hin & Hkeep & Hout & _ & Hstate & Hstate').
  rewrite Hidem.
  unfold setState, notify. cbn [snd state listeners].
  rewrite !received_deliveries.
  rewrite filter_eqb_NoDup by auto.
  rewrite Hstate, Hstate'. repeat split.
  replace (filter (fun l => Nat.eqb l listener) (listeners (unsubscribe listener st)))
    with (@nil nat); [reflexivity|].
  symmetry. apply filter_none.
  intros y Hy. apply Nat.eqb_neq. intros ->. contradiction.
Qed.

Lemma setState_calls_each_once_witness :
  NoDup (listeners create) /\
  received 7 (snd (setLoading true (subscribe 7 (subscribe 7 create))))
  = [mkState None [] (mkImage None None 0 0 "pending") (mkStats 0 0 0 0) true].
Proof.
  assert (Hnd : NoDup (listeners create)) by constructor.
  split; [exact Hnd|].
  apply (proj1 (proj2 (@setState_calls_each_once create
                         (mkStatePatch None None None None (Some true)) 7 Hnd))).
Defined.

End SubscriberFacts.

(** ** Keyboard shortcuts *)

Section KeyFacts.

(** Case analysis on the tests of [key] against the labels of a switch. *)
Ltac labels key :=
  repeat match goal with
         | |- context [String.eqb key ?k] =>
             destruct (String.eqb_spec key k); [subst key; cbn|]
         end.

(** X11.  In the store-based front end no key press reaches [handleSave]:
    the second [case 's'] of the switch is shadowed by the first, so that
    [s] skips the image whether or not Ctrl or Cmd is held.  Undo is
    reached only by [z] with Ctrl or Cmd, and key presses in an input or a
    text area do nothing. *)
Theorem keydown_never_saves (tagName key : string) (ctrlKey metaKey : bool) :
  Keys.keydown tagName key ctrlKey metaKey <> Some Keys.HandleSave /\
  (Keys.keydown tagName key ctrlKey metaKey = Some Keys.HandleUndo ->
   key = "z" /\ ctrlKey || metaKey = true) /\
  (tagName = "INPUT" \/ tagName = "TEXTAREA" ->
   Keys.keydown tagName key ctrlKey metaKey = None) /\
  (String.eqb tagName "INPUT" || String.eqb tagName "TEXTAREA" = false ->
   Keys.keydown tagName "s" ctrlKey metaKey = Some Keys.HandleSkip).
Proof.
  unfold Keys.keydown.
  destruct (String.eqb tagName "INPUT" || String.eqb tagName "TEXTAREA") eqn:Hfield.
  - repeat split; try discriminate.
  - repeat split.
    + cbn. labels key; try discriminate;
        destruct (ctrlKey || metaKey); discriminate.
    + revert H. cbn. labels key; try discriminate. reflexivity.
    + revert H. cbn. labels key; try discriminate.
      destruct (ctrlKey || metaKey); [reflexivity | discriminate].
    + intros [->| ->]; discriminate.
Qed.

Lemma keydown_never_saves_witness :
  String.eqb "BODY" "INPUT" || String.eqb "BODY" "TEXTAREA" = false /\
  Keys.keydown "BODY" "s" true false = Some Keys.HandleSkip.
Proof.
  split; [reflexivity|].
  apply (proj2 (proj2 (proj2 (keydown_never_saves "BODY" "s" true false)))).
  reflexivity.
Defined.

(** X12.  In the index-based front end a key press in a form field does
    nothing.  With Ctrl or Cmd held only undo, redo and save can be
    reached, so Ctrl+S saves and never skips; without them these three
    cannot be reached.  [preventDefault] is called exactly when a shortcut
    fires. *)
Theorem handleKeyDown_modifiers (inField : bool) (key : string)
        (ctrlKey metaKey : bool) :
  let command := fst (Keyboard.handleKeyDown inField key ctrlKey metaKey) in
  let prevented := snd (Keyboard.handleKeyDown inField key ctrlKey metaKey) in
  (inField = true -> command = None) /\
  (ctrlKey || metaKey = true ->
   command = None \/ command = Some Keyboard.UndoAction \/
   command = Some Keyboard.RedoAction \/ command = Some Keyboard.SaveProgress) /\
  (ctrlKey || metaKey = false ->
   command <> Some Keyboard.UndoAction /\ command <> Some Keyboard.RedoAction /\
   command <> Some Keyboard.SaveProgress) /\
  (prevented = true <-> command <> None).
Proof.
  cbv zeta. unfold Keyboard.handleKeyDown.
  destruct inField.
  - cbn. repeat split; try discriminate; auto; intros H; congruence.
  - destruct (ctrlKey || metaKey); cbn; labels key;
      repeat split; try discriminate; auto; try (intros H; congruence).
Qed.

Lemma handleKeyDown_modifiers_witness :
  true || false = true /\
  (fst (Keyboard.handleKeyDown false "s" true false) = None \/
   fst (Keyboard.handleKeyDown false "s" true false) = Some Keyboard.UndoAction \/
   fst (Keyboard.handleKeyDown false "s" true false) = Some Keyboard.RedoAction \/
   fst (Keyboard.handleKeyDown false "s" true false) = Some Keyboard.SaveProgress).
Proof.
  split; [reflexivity|].
  apply (proj1 (proj2 (handleKeyDown_modifiers false "s" true false))).
  reflexivity.
Defined.

End KeyFacts.

(** ** The image viewer *)

Section ViewerFacts.
Import Store.

Lemma split_nonempty sep s : Ui.split sep s <> [].
Proof.
  destruct s as [|c s]; cbn; [discriminate|].
  destruct (sep c); [discriminate|].
  destruct (Ui.split sep s); discriminate.
Qed.

Lemma split_pieces_free sep s : Forall (Ui.free_of sep) (Ui.split sep s).
Proof.
  induction s as [|c s IH]; cbn; [repeat constructor|].
  destruct (sep c) eqn:E; [constructor; [exact I | exact IH]|].
  destruct (Ui.split sep s) as [|piece rest]; [repeat constructor; assumption|].
  inversion IH; subst. constructor; [split; assumption | assumption].
Qed.

Lemma split_free sep s : Ui.free_of sep s -> Ui.split sep s = [s].
Proof.
  induction s as [|c s IH]; cbn; [reflexivity|].
  intros (Hc & Hs). rewrite Hc, (IH Hs). reflexivity.
Qed.

Lemma split_single sep s piece : Ui.split sep s = [piece] -> s = piece.
Proof.
  revert piece. induction s as [|c s IH]; cbn; intros piece H.
  - congruence.
  - destruct (sep c).
    + injection H as _ H. now apply split_nonempty in H.
    + destruct (Ui.split sep s) as [|p0 rest] eqn:Es;
        [now apply split_nonempty in Es|].
      injection H as <- ->. f_equal. now apply IH.
Qed.

Lemma split_append sep (a : string) c (b : string) :
  sep c = true ->
  Ui.split sep (a ++ String c b)%string
  = (Ui.split sep a ++ Ui.split sep b)%list.
Proof.
  intros Hc. induction a as [|x a IH]; cbn.
  - now rewrite Hc.
  - destruct (sep x); [now rewrite IH|].
    rewrite IH. pose proof (@split_nonempty sep a) as Hne.
    destruct (Ui.split sep a); [congruence | reflexivity].
Qed.

Lemma last_In (l : list string) (d : string) : l <> [] -> In (last l d) l.
Proof.
  induction l as [|x [|y l] IH]; intros Hne; [congruence | now left |].
  right. apply IH. discriminate.
Qed.

Lemma basename_free path : Ui.free_of Ui.is_slash (Ui.basename path).
Proof.
  unfold Ui.basename.
  pose proof (split_pieces_free Ui.is_slash path) as Hfree.
  rewrite Forall_forall in Hfree. apply Hfree.
  apply last_In. apply split_nonempty.
Qed.

(** X13.  The file name shown for a path is its part after the last slash
    or backslash: it contains neither, the path is a directory part
    followed by it, and the directory part is empty or ends with a slash or
    a backslash.  So a path without separators is shown whole, and the name
    of [dir/name] is [name]. *)
Theorem basename_is_last_component (path : string) :
  Ui.free_of Ui.is_slash (Ui.basename path) /\
  (exists dir,
      path = (dir ++ Ui.basename path)%string /\
      (dir = "" \/
       exists d c, dir = (d ++ String c "")%string /\ Ui.is_slash c = true)) /\
  (Ui.free_of Ui.is_slash path -> Ui.basename path = path) /\
  (forall dir c, Ui.is_slash c = true ->
                 Ui.basename (dir ++ String c path)%string = Ui.basename path).
Proof.
  split; [apply basename_free|]. split; [|split].
  - induction path as [|c s IH].
    + exists "". split; [reflexivity | now left].
    + destruct IH as (dir & Heq & Hdir).
      pose proof (@split_nonempty Ui.is_slash s) as Hne.
      unfold Ui.basename in *. cbn [Ui.split].
      destruct (Ui.is_slash c) eqn:E.
      * destruct (Ui.split Ui.is_slash s) as [|p r] eqn:Es; [congruence|].
        exists (String c dir). split; [cbn; f_equal; exact Heq|].
        right. destruct Hdir as [->|(d & c' & -> & Hc')].
        -- exists "", c. split; [reflexivity | exact E].
        -- exists (String c d), c'. split; [reflexivity | exact Hc'].
      * destruct (Ui.split Ui.is_slash s) as [|p [|p' r']] eqn:Es; [congruence| |].
        -- apply split_single in Es. subst p.
           exists "". split; [reflexivity | now left].
        -- exists (String c dir). split; [cbn; f_equal; exact Heq|].
           destruct Hdir as [->|(d & c' & -> & Hc')].
           ++ exfalso. cbn [append] in Heq.
              pose proof (basename_free s) as Hfree.
              unfold Ui.basename in Hfree. rewrite Es, <- Heq in Hfree.
              rewrite (split_free _ _ Hfree) in Es. discriminate.
           ++ right. exists (String c d), c'. split; [reflexivity | exact Hc'].
  - intros Hfree. unfold Ui.basename. now rewrite split_free.
  - intros dir c Hc. unfold Ui.basename.
    rewrite split_append by exact Hc.
    pose proof (@split_nonempty Ui.is_slash path) as Hne.
    destruct (@exists_last _ (Ui.split Ui.is_slash path) Hne) as (l & x & ->).
    now rewrite app_assoc, !last_last.
Qed.

Lemma basename_is_last_component_witness :
  Ui.free_of Ui.is_slash "0004.jpg" /\
  Ui.basename "0004.jpg" = "0004.jpg" /\
  Ui.basename "A/0004.jpg" = "0004.jpg".
Proof.
  assert (Hfree : Ui.free_of Ui.is_slash "0004.jpg") by (cbn; tauto).
  destruct (basename_is_last_component "0004.jpg") as (_ & _ & Hwhole & Hdir).
  split; [exact Hfree|]. split; [exact (Hwhole Hfree)|].
  rewrite <- (Hwhole Hfree) at 2. apply (Hdir "A" "/"%char). reflexivity.
Defined.

Ltac proj :=
  cbv zeta;
  cbn [Ui.mainImage Ui.emptyState Ui.mainImage_src Ui.mainImage_transform
       Ui.counterCurrent Ui.counterTotal Ui.currentImageName].

(** X14.  What the viewer shows after [updateImageDisplay].  With pixels
    the image is visible, the placeholder hidden and the zoom reset.
    Without pixels the image is hidden, and the placeholder is revealed
    only when the total is 0: otherwise it keeps the visibility it had.
    Hence the image and the placeholder are never visible together, and
    after a failed load in a dataset that has images (the blanked record)
    a viewer whose placeholder was hidden shows neither.  The counter
    shows 0 when the total is not positive. *)
Theorem updateImageDisplay_visibility (img : Image) (v : Ui.Viewer) :
  (truthy (data img) = true ->
   Ui.contains "hidden" (Ui.mainImage (Ui.updateImageDisplay img v)) = false /\
   Ui.contains "hidden" (Ui.emptyState (Ui.updateImageDisplay img v)) = true /\
   Ui.mainImage_transform (Ui.updateImageDisplay img v)
   = "translate(0px, 0px) scale(1)") /\
  (truthy (data img) = false ->
   Ui.contains "hidden" (Ui.mainImage (Ui.updateImageDisplay img v)) = true /\
   Ui.mainImage_src (Ui.updateImageDisplay img v) = Ui.mainImage_src v /\
   (total img = 0 ->
    Ui.contains "hidden" (Ui.emptyState (Ui.updateImageDisplay img v)) = false) /\
   (total img <> 0 ->
    Ui.emptyState (Ui.updateImageDisplay img v) = Ui.emptyState v)) /\
  (Ui.contains "hidden" (Ui.mainImage (Ui.updateImageDisplay img v)) = false ->
   Ui.contains "hidden" (Ui.emptyState (Ui.updateImageDisplay img v)) = true) /\
  (total img <> 0 ->
   Ui.contains "hidden" (Ui.emptyState v) = true ->
   Ui.contains "hidden"
     (Ui.mainImage (Ui.updateImageDisplay (App.blank img) v)) = true /\
   Ui.contains "hidden"
     (Ui.emptyState (Ui.updateImageDisplay (App.blank img) v)) = true /\
   Ui.currentImageName (Ui.updateImageDisplay (App.blank img) v) = "-") /\
  (total img <= 0 -> Ui.counterCurrent (Ui.updateImageDisplay img v) = "0").
Proof.
  unfold Ui.updateImageDisplay. repeat apply conj.
  - intros Ht. destruct (data img) as [[|c d]|]; try discriminate.
    proj. rewrite contains_add, contains_remove. auto.
  - intros Ht. destruct (data img) as [[|c d]|]; try discriminate; proj;
      rewrite contains_add; (repeat split; try reflexivity);
      intros Htotal.
    1,3: rewrite Htotal; cbn [Z.eqb]; apply contains_remove.
    all: destruct (Z.eqb_spec (total img) 0); [contradiction | reflexivity].
  - destruct (data img) as [[|c d]|]; proj;
      rewrite ?contains_add, ?contains_remove; congruence.
  - intros Htotal Hhidden. cbn [App.blank data path total index status]. proj.
    destruct (Z.eqb_spec (total img) 0); [contradiction|].
    rewrite contains_add. auto.
  - intros Htotal.
    assert (E : (total img >? 0) = false)
      by (rewrite Z.gtb_ltb; apply Z.ltb_ge; exact Htotal).
    destruct (data img) as [[|c d]|]; proj; rewrite E; reflexivity.
Qed.

Lemma updateImageDisplay_visibility_witness :
  total Fixtures.image_A <> 0 /\
  truthy (data (App.blank Fixtures.image_A)) = false /\
  Ui.contains "hidden"
    (Ui.mainImage
       (Ui.updateImageDisplay (App.blank Fixtures.image_A)
          (Ui.mkViewer "4" "12" "0004.jpg" "" [] "" ["hidden"]))) = true /\
  Ui.emptyState
    (Ui.updateImageDisplay (App.blank Fixtures.image_A)
       (Ui.mkViewer "4" "12" "0004.jpg" "" [] "" ["hidden"])) = ["hidden"].
Proof.
  assert (Htotal : total Fixtures.image_A <> 0) by discriminate.
  split; [exact Htotal|]. split; [reflexivity|].
  destruct (updateImageDisplay_visibility (App.blank Fixtures.image_A)
              (Ui.mkViewer "4" "12" "0004.jpg" "" [] "" ["hidden"]))
    as (_ & Hblank & _).
  destruct (Hblank eq_refl) as (Himage & _ & _ & Hkeep).
  split; [exact Himage | exact (Hkeep Htotal)].
Defined.

End ViewerFacts.

(** ** The sidebar *)

Section SidebarFacts.
Import Store.

(** [a] may stand before [b]: its priority is not lower. *)
Let before (a b : Dataset.t) : Prop :=
  or0 (Dataset.priority a) >= or0 (Dataset.priority b).

Let has_priority (p : Z) (d : Dataset.t) : bool :=
  Z.eqb (or0 (Dataset.priority d)) p.

Lemma insert_perm x l : Permutation (x :: l) (Ui.insert Ui.by_priority x l).
Proof.
  induction l as [|y l IH]; cbn; [reflexivity|].
  destruct (Z.leb (Ui.by_priority x y) 0); [reflexivity|].
  rewrite perm_swap. now constructor.
Qed.

Lemma sort_perm l : Permutation l (Ui.sort Ui.by_priority l).
Proof.
  induction l as [|x l IH]; cbn; [constructor|].
  rewrite <- insert_perm. now constructor.
Qed.

Lemma insert_sorted x l :
  Sorted before l -> Sorted before (Ui.insert Ui.by_priority x l).
Proof.
  induction 1 as [|y l Hl IH Hhd]; cbn; [repeat constructor|].
  destruct (Z.leb_spec (Ui.by_priority x y) 0) as [Hle|Hgt].
  - constructor; [now constructor|]. constructor.
    unfold before, Ui.by_priority in *. lia.
  - constructor; [exact IH|].
    destruct l as [|z l]; cbn.
    + constructor. unfold before, Ui.by_priority in *. lia.
    + destruct (Z.leb (Ui.by_priority x z) 0); constructor.
      * unfold before, Ui.by_priority in *. lia.
      * now inversion Hhd.
Qed.

Lemma sort_sorted l : Sorted before (Ui.sort Ui.by_priority l).
Proof.
  induction l as [|x l IH]; cbn; [constructor | now apply insert_sorted].
Qed.

Lemma insert_stable p x l :
  filter (has_priority p) (Ui.insert Ui.by_priority x l)
  = filter (has_priority p) (x :: l).
Proof.
  induction l as [|y l IH]; cbn; [reflexivity|].
  destruct (Z.leb_spec (Ui.by_priority x y) 0) as [Hle|Hgt]; [reflexivity|].
  cbn. rewrite IH. cbn. unfold has_priority, Ui.by_priority in *.
  destruct (Z.eqb_spec (or0 (Dataset.priority x)) p);
    destruct (Z.eqb_spec (or0 (Dataset.priority y)) p); try reflexivity.
  lia.
Qed.

Lemma sort_stable p l :
  filter (has_priority p) (Ui.sort Ui.by_priority l) = filter (has_priority p) l.
Proof.
  induction l as [|x l IH]; cbn; [reflexivity|].
  rewrite insert_stable. cbn. now rewrite IH.
Qed.

(** X15.  [renderDatasetList] leaves the array ordered by descending
    priority, a missing priority counting as 0: the array holds the same
    datasets as before, and datasets of equal priority keep their order.
    The sidebar has one entry per dataset in that order; an entry is marked
    active exactly when its dataset is the current one, and a click on it
    selects that dataset, so that a click on an active entry leaves the
    store as it is.  Only an empty array gives the note that there is no
    dataset. *)
Theorem renderDatasetList_orders (datasets : list Dataset.t)
        (currentName : option string) :
  Permutation datasets (fst (Ui.renderDatasetList datasets currentName)) /\
  StronglySorted (fun a b => or0 (Dataset.priority a) >= or0 (Dataset.priority b))
                 (fst (Ui.renderDatasetList datasets currentName)) /\
  (forall p,
      filter (fun d => Z.eqb (or0 (Dataset.priority d)) p)
             (fst (Ui.renderDatasetList datasets currentName))
      = filter (fun d => Z.eqb (or0 (Dataset.priority d)) p) datasets) /\
  match snd (Ui.renderDatasetList datasets currentName) with
  | Ui.NoDatasets => datasets = []
  | Ui.Entries es =>
      datasets <> [] /\
      map Ui.onclick es
      = map Dataset.name (fst (Ui.renderDatasetList datasets currentName)) /\
      forall e, In e es ->
                (Ui.className e = "dataset-item active"
                 <-> currentName = Some (Ui.onclick e)) /\
                (Ui.className e = "dataset-item active" ->
                 forall env (w : App.W),
                   currentDataset (state (page w)) = currentName ->
                   App.selectDataset (Ui.onclick e) env w = (Return tt, w))
  end.
Proof.
  unfold Ui.renderDatasetList.
  destruct datasets as [|d ds].
  - cbn. repeat split; constructor.
  - cbn [fst snd]. split; [apply sort_perm|]. split.
    + apply Sorted_StronglySorted; [|apply sort_sorted].
      intros a b c. unfold before. lia.
    + split; [intros p; apply (sort_stable p)|].
      split; [discriminate|]. split.
      * rewrite map_map. reflexivity.
      * intros e He. apply in_map_iff in He. destruct He as (x & <- & _).
        cbn [Ui.entry Ui.className Ui.onclick].
        assert (Hactive : "dataset-item "
                          ++ (if strict_eq currentName (Dataset.name x)
                              then "active" else "")
                          = "dataset-item active"
                          <-> currentName = Some (Dataset.name x)).
        { destruct (strict_eq currentName (Dataset.name x)) eqn:E.
          - apply strict_eq_true in E. split; auto.
          - split; [discriminate|]. intros ->. cbn in E.
            now rewrite String.eqb_refl in E. }
        split; [exact Hactive|].
        intros Hclass env w Hcur. apply selectDataset_same.
        rewrite Hcur. now apply Hactive.
Qed.

Lemma renderDatasetList_orders_witness :
  fst (Ui.renderDatasetList [Fixtures.dataset_B; Fixtures.dataset_A] (Some "A"))
  = [Fixtures.dataset_A; Fixtures.dataset_B] /\
  In (Ui.mkEntry "dataset-item active" "A" "A")
     (map (Ui.entry (Some "A")) [Fixtures.dataset_A; Fixtures.dataset_B]) /\
  currentDataset (state (page (Fixtures.world_A false))) = Some "A" /\
  App.selectDataset "A" Fixtures.online (Fixtures.world_A false)
  = (Return tt, Fixtures.world_A false).
Proof.
  split; [reflexivity|].
  assert (Hin : In (Ui.mkEntry "dataset-item active" "A" "A")
                   (map (Ui.entry (Some "A"))
                        [Fixtures.dataset_A; Fixtures.dataset_B]))
    by (left; reflexivity).
  split; [exact Hin|]. split; [reflexivity|].
  destruct (renderDatasetList_orders [Fixtures.dataset_B; Fixtures.dataset_A]
                                     (Some "A")) as (_ & _ & _ & Hentries).
  change (snd (Ui.renderDatasetList [Fixtures.dataset_B; Fixtures.dataset_A]
                                    (Some "A")))
    with (Ui.Entries (map (Ui.entry (Some "A"))
                          [Fixtures.dataset_A; Fixtures.dataset_B])) in Hentries.
  destruct Hentries as (_ & _ & Hclick).
  destruct (Hclick _ Hin) as (_ & Hnoop).
  apply (Hnoop eq_refl Fixtures.online (Fixtures.world_A false)). reflexivity.
Defined.

(** *** The list of datasets in the store *)

Lemma insert_first x l :
  HdRel before x l -> Ui.insert Ui.by_priority x l = x :: l.
Proof.
  destruct 1 as [|y l H]; cbn; [reflexivity|].
  destruct (Z.leb_spec (Ui.by_priority x y) 0); [reflexivity|].
  unfold before, Ui.by_priority in *. lia.
Qed.

(** Sorting an array that is sorted leaves it as it is. *)
Lemma sort_of_sorted l : Sorted before l -> Ui.sort Ui.by_priority l = l.
Proof.
  induction 1 as [|x l Hl IH Hhd]; cbn; [reflexivity|].
  rewrite IH. now apply insert_first.
Qed.

Lemma rendered_datasets (s : State) :
  datasets (App.rendered s) = Ui.sort Ui.by_priority (datasets s).
Proof.
  unfold App.rendered, Ui.renderDatasetList. cbn [datasets].
  destruct (datasets s); reflexivity.
Qed.

(** The listener of the page leaves a state with a sorted array as it is:
    for the updates that pass the array on, the state of the store is the
    one its methods give. *)
Lemma rendered_sorted (s : State) :
  Sorted before (datasets s) -> App.rendered s = s.
Proof.
  intros H. pose proof (rendered_datasets s) as Hd.
  rewrite (sort_of_sorted H) in Hd.
  destruct s as [c d i st l]. unfold App.rendered in *.
  cbn [currentDataset datasets image stats isLoading] in *. now rewrite Hd.
Qed.

Lemma notify_datasets (s : State) (ls : list nat) :
  datasets (fst (App.notify s ls))
  = if existsb (Nat.eqb App.subscriber) ls
    then Ui.sort Ui.by_priority (datasets s) else datasets s.
Proof.
  revert s. induction ls as [|l ls IH]; intros s; [reflexivity|].
  cbn [App.notify fst existsb]. rewrite IH, (Nat.eqb_sym App.subscriber l).
  destruct (Nat.eqb l App.subscriber); cbn [orb]; [|reflexivity].
  rewrite rendered_datasets, (sort_of_sorted (sort_sorted _)).
  now destruct (existsb _ ls).
Qed.

Lemma notify_calls (s : State) (ls : list nat) :
  requests (snd (App.notify s ls)) = [] /\
  toasts (snd (App.notify s ls)) = [] /\
  length (snapshots (snd (App.notify s ls))) = length ls.
Proof.
  revert s. induction ls as [|l ls IH]; intros s; cbn; [auto|].
  destruct (IH (if Nat.eqb l App.subscriber then App.rendered s else s))
    as (Hr & Ht & Hn).
  rewrite Hr, Ht, Hn. auto.
Qed.

Lemma notify_absent (who : nat) (s : State) (ls : list nat) :
  ~ In who ls -> received who (snd (App.notify s ls)) = [].
Proof.
  revert s. induction ls as [|l ls IH]; intros s Hnot; [reflexivity|].
  cbn [App.notify snd received].
  destruct (Nat.eqb_spec l who) as [->|_]; [exfalso; apply Hnot; now left|].
  apply IH. intros Hin. apply Hnot. now right.
Qed.

(** The listener of the page is handed the array as it was served. *)
Lemma notify_received (s : State) (ls : list nat) :
  NoDup ls -> In App.subscriber ls ->
  received App.subscriber (snd (App.notify s ls)) = [s].
Proof.
  intros Hnd. revert s. induction Hnd as [|l ls Hnot Hnd IH]; intros s Hin.
  - destruct Hin.
  - cbn [App.notify snd received].
    destruct (Nat.eqb_spec l App.subscriber) as [->|Hne].
    + now rewrite notify_absent.
    + destruct Hin as [->|Hin]; [congruence|]. now apply IH.
Qed.

(** On a state whose array is sorted, calling the listeners of the page
    is what [Store.notify] says: every listener is handed the state, and
    the state stays as it is. *)
Lemma notify_sorted (s : State) (ls : list nat) :
  Sorted before (datasets s) ->
  App.notify s ls = (s, map (fun listener => Deliver listener s) ls).
Proof.
  intros H. induction ls as [|l ls IH]; [reflexivity|].
  cbn [App.notify map]. rewrite (rendered_sorted s H).
  destruct (Nat.eqb l App.subscriber); now rewrite IH.
Qed.

Lemma settled_store (method : Store.t -> Store.t * list (Event State)) :
  (forall st, listeners (fst (method st)) = listeners st /\
              datasets (state (fst (method st))) = datasets (state st)) ->
  preserves App.settled (App.store method).
Proof.
  intros Hm env w (Hin & Hs). destruct (Hm (page w)) as (Hl & Hd).
  unfold App.settled. cbn. now rewrite Hl, Hd.
Qed.

(** With the listener of the page subscribed, [refreshDatasets] leaves the
    page settled, whatever the order of the list it is served. *)
Lemma settled_setDatasets types (st : Store.t) :
  In App.subscriber (listeners st) ->
  App.settled (fst (App.setDatasets types st)).
Proof.
  intros Hin. split; [exact Hin|].
  cbn [App.setDatasets fst state]. rewrite notify_datasets.
  cbn [setState fst listeners state].
  rewrite (proj2 (existsb_eqb_In App.subscriber (listeners st)) Hin).
  apply sort_sorted.
Qed.

Ltac settles known :=
  unfold App.getState, App.api;
  keeps ltac:(first [ known
                    | apply settled_store; intros ?; split; reflexivity ]).

Lemma settled_refreshDatasets : preserves App.settled App.refreshDatasets.
Proof.
  unfold App.refreshDatasets, App.getState, App.api.
  keeps ltac:(intros env w Hs; apply settled_setDatasets; apply Hs).
Qed.

Lemma settled_loadCurrentImage : preserves App.settled App.loadCurrentImage.
Proof. unfold App.loadCurrentImage. settles fail. Qed.

Lemma settled_updateProgress : preserves App.settled App.updateProgress.
Proof. unfold App.updateProgress. settles fail. Qed.

(** Every handler keeps a settled page settled. *)
Lemma settled_handlers :
  (forall name, preserves App.settled (App.selectDataset name)) /\
  (forall label, preserves App.settled (App.handleAnnotation label)) /\
  preserves App.settled App.handleSkip /\
  preserves App.settled App.handleDelete /\
  (forall direction, preserves App.settled (App.handleNavigate direction)) /\
  preserves App.settled App.handleUndo.
Proof.
  repeat apply conj; intros;
    unfold App.selectDataset, App.handleAnnotation, App.handleSkip,
      App.handleDelete, App.handleNavigate, App.handleUndo;
    settles ltac:(first [ apply settled_loadCurrentImage
                        | apply settled_updateProgress ]).
Qed.

(** X7.  [refreshDatasets] asks for the list of types in fast mode.  When
    the list is served, [this.state] becomes a new object that differs
    from the old one in [datasets] only, and every listener is called
    with it.  On the page, where the listener of [bindEvents] is
    subscribed, that listener is handed the list in the order it was
    served and sorts it in place: the store ends with the list sorted by
    descending priority, not with the list as served.  Without that
    listener the list stays as served.  When the request is rejected the
    store is untouched and an error toast is shown. *)
Theorem refreshDatasets_replaces_list env (w : App.W) :
  match Remote.getTypes env (tick w) true with
  | Resolved types =>
      fst (App.refreshDatasets env w) = Return tt /\
      tick (snd (App.refreshDatasets env w)) = S (tick w) /\
      listeners (page (snd (App.refreshDatasets env w))) = listeners (page w) /\
      retired (page (snd (App.refreshDatasets env w)))
      = (retired (page w) ++ [state (page w)])%list /\
      currentDataset (state (page (snd (App.refreshDatasets env w))))
      = currentDataset (state (page w)) /\
      image (state (page (snd (App.refreshDatasets env w))))
      = image (state (page w)) /\
      stats (state (page (snd (App.refreshDatasets env w))))
      = stats (state (page w)) /\
      isLoading (state (page (snd (App.refreshDatasets env w))))
      = isLoading (state (page w)) /\
      datasets (state (page (snd (App.refreshDatasets env w))))
      = (if existsb (Nat.eqb App.subscriber) (listeners (page w))
         then Ui.sort Ui.by_priority types else types) /\
      requests (since w (snd (App.refreshDatasets env w))) = [GetTypes true] /\
      toasts (since w (snd (App.refreshDatasets env w))) = [] /\
      length (snapshots (since w (snd (App.refreshDatasets env w))))
      = length (listeners (page w)) /\
      (NoDup (listeners (page w)) ->
       In App.subscriber (listeners (page w)) ->
       received App.subscriber (since w (snd (App.refreshDatasets env w)))
       = [mkState (currentDataset (state (page w))) types
                  (image (state (page w))) (stats (state (page w)))
                  (isLoading (state (page w)))])
  | Rejected _ =>
      App.refreshDatasets env w =
      (Return tt,
       mkWorld (page w)
               (log w ++ [Request (App.loading (page w)) (GetTypes true);
                          Toast "无法加载数据类型" "error"])
               (S (tick w)))
  end.
Proof.
  unfold App.refreshDatasets. app_unfold.
  destruct (Remote.getTypes env (tick w) true) as [types|e];
    cbn -[App.notify]; [|rewrite <- !app_assoc; reflexivity].
  unfold spreadState. cbn -[App.notify].
  set (s := mkState (currentDataset (state (page w))) types
                    (image (state (page w))) (stats (state (page w)))
                    (isLoading (state (page w)))).
  destruct (notify_frame s (listeners (page w))) as (Hd & Hi & Hs & Hl).
  destruct (notify_calls s (listeners (page w))) as (Hr & Ht & Hn).
  erewrite since_app by (cbn; rewrite <- app_assoc; reflexivity).
  cbn [requests toasts snapshots received app].
  rewrite Hd, Hi, Hs, Hl, Hr, Ht, Hn, notify_datasets.
  repeat split. intros Hnd Hin. now apply notify_received.
Qed.

Lemma refreshDatasets_replaces_list_witness :
  Remote.getTypes Fixtures.unordered (tick Fixtures.world_0) true
  = Resolved [Fixtures.dataset_B; Fixtures.dataset_A] /\
  NoDup (listeners (page Fixtures.world_0)) /\
  In App.subscriber (listeners (page Fixtures.world_0)) /\
  datasets (state (page (snd (App.refreshDatasets Fixtures.unordered
                                                  Fixtures.world_0))))
  = [Fixtures.dataset_A; Fixtures.dataset_B] /\
  received App.subscriber
           (since Fixtures.world_0
                  (snd (App.refreshDatasets Fixtures.unordered Fixtures.world_0)))
  = [mkState None [Fixtures.dataset_B; Fixtures.dataset_A]
             (mkImage None None 0 0 "pending") (mkStats 0 0 0 0) false].
Proof.
  assert (Hnd : NoDup (listeners (page Fixtures.world_0)))
    by (repeat constructor; intros []).
  assert (Hin : In App.subscriber (listeners (page Fixtures.world_0)))
    by (left; reflexivity).
  split; [reflexivity|]. split; [exact Hnd|]. split; [exact Hin|].
  destruct (refreshDatasets_replaces_list Fixtures.unordered Fixtures.world_0)
    as (_ & _ & _ & _ & _ & _ & _ & _ & Hsorted & _ & _ & _ & Hhanded).
  split; [exact Hsorted | exact (Hhanded Hnd Hin)].
Defined.

End SidebarFacts.

(** ** The lists of the index-based front end *)

Section LegacyListFacts.

(** X16.  For a type with targets and counts, the entry of the type list
    is marked complete exactly when the sum of the two targets is positive
    and the sum of the two counts reaches it.  So whenever the target panel
    is shown with both of its counters complete, the entry is complete too;
    and a type without targets shows its annotated and total numbers. *)
Theorem typeItem_complete (activeType : option string) (type : Dataset.t)
        (target current : Counts.t) (others : list Dataset.t)
        (p : Legacy.StatsPanel) :
  Dataset.target_count type = Some target ->
  Dataset.current_count type = Some current ->
  let targetTotal := or0 (Counts.watermarked target)
                     + or0 (Counts.non_watermarked target) in
  let currentTotal := or0 (Counts.watermarked current)
                      + or0 (Counts.non_watermarked current) in
  let item := LegacyUi.typeItem activeType type in
  let panel := Legacy.updateTargetStats (Dataset.name type) (type :: others) p in
  (LegacyUi.countClass item = "count complete"
   <-> targetTotal > 0 /\ currentTotal >= targetTotal) /\
  (Legacy.display panel = "flex" ->
   Legacy.stat_watermarked_class panel = "stat-value complete" ->
   Legacy.stat_no_watermark_class panel = "stat-value complete" ->
   LegacyUi.countClass item = "count complete") /\
  (targetTotal <= 0 ->
   LegacyUi.count item
   = show_Z (Dataset.annotated_count type) ++ "/"
     ++ show_Z (Dataset.total_images type)).
Proof.
  intros Ht Hc. cbv zeta.
  unfold LegacyUi.typeItem, Legacy.updateTargetStats.
  cbn [find]. rewrite String.eqb_refl, Ht, Hc.
  cbn [LegacyUi.countClass LegacyUi.count].
  set (wmT := or0 (Counts.watermarked target)).
  set (nwmT := or0 (Counts.non_watermarked target)).
  set (wmC := or0 (Counts.watermarked current)).
  set (nwmC := or0 (Counts.non_watermarked current)).
  split; [|split].
  - destruct (Z.gtb_spec (wmT + nwmT) 0);
      destruct (Z.geb_spec (wmC + nwmC) (wmT + nwmT));
      cbn [andb]; split; try discriminate; try reflexivity; intros; lia.
  - destruct (Z.gtb_spec (wmT + nwmT) 0); cbn [negb Legacy.display];
      [intros _ | discriminate].
    cbn [Legacy.stat_watermarked_class Legacy.stat_no_watermark_class].
    destruct (Z.gtb_spec wmT 0); destruct (Z.geb_spec wmC wmT); cbn [andb];
      try discriminate;
      destruct (Z.gtb_spec nwmT 0); destruct (Z.geb_spec nwmC nwmT); cbn [andb];
        try discriminate; intros _ _;
        destruct (Z.geb_spec (wmC + nwmC) (wmT + nwmT)); [reflexivity | lia].
  - intros Hle. destruct (Z.gtb_spec (wmT + nwmT) 0); [lia | reflexivity].
Qed.

End LegacyListFacts.

(** ** Loading by index and annotating *)

Section LegacyExtras.
Import Fixtures.
Local Open Scope handler_scope.

(** X17.  When [loadImageByIndex] is served the metadata of the image but
    not its pixels, it shows an error toast and neither shows nor hides an
    image, so the viewer keeps the picture it had, while
    [state.currentImage] and [state.currentIndex] already hold the new
    metadata.  [annotate], called next, therefore sends as its first
    request the label for the path of the image that was never shown. *)
Theorem loadImageByIndex_then_annotate env (w : Legacy.W) type index info e label :
  Legacy.currentType (Legacy.state (page w)) = Some type ->
  type <> "" ->
  Legacy.isLoading (Legacy.state (page w)) = false ->
  Remote.getImageByIndex env (tick w) type index = Resolved info ->
  Remote.getImageBase64 env (S (tick w)) type index = Rejected e ->
  since w (snd (Legacy.loadImageByIndex index env w))
  = [Ui ShowLoading;
     Request true (GetImageByIndex type index);
     Request true (GetImageBase64 type index);
     Toast ("加载失败: " ++ e) "error"] /\
  Legacy.state (page (snd (Legacy.loadImageByIndex index env w)))
  = Legacy.mkState (Some type) (ImageInfo.index info) (Some info)
                   (Legacy.types (Legacy.state (page w))) false /\
  exists rest,
    since (snd (Legacy.loadImageByIndex index env w))
          (snd (Legacy.annotate label env (snd (Legacy.loadImageByIndex index env w))))
    = Request false (CreateAnnotation (ImageInfo.path info) label type) :: rest.
Proof.
  intros Hd Hne Hb Hmeta Hpix.
  assert (Hrun : Legacy.loadImageByIndex index env w =
                 (Return tt,
                  mkWorld (Legacy.mkPage
                             (Legacy.mkState (Some type) (ImageInfo.index info)
                                (Some info) (Legacy.types (Legacy.state (page w)))
                                false)
                             (Legacy.panel (page w)))
                          (log w ++ [Ui ShowLoading;
                                     Request true (GetImageByIndex type index);
                                     Request true (GetImageBase64 type index);
                                     Toast ("加载失败: " ++ e) "error"])
                          (S (S (tick w))))).
  { unfold Legacy.loadImageByIndex. legacy_unfold.
    rewrite Hd. destruct type as [|a s]; [congruence|]. rewrite Hb.
    cbn -[append]. rewrite Hmeta. cbn -[append]. rewrite Hpix. cbn -[append].
    unfold Legacy.set_isLoading, Legacy.set_currentIndex, Legacy.set_currentImage.
    cbn -[append]. rewrite Hd, <- !app_assoc. reflexivity. }
  rewrite Hrun. cbn [snd].
  split; [apply since_app; reflexivity|]. split; [reflexivity|].
  destruct type as [|a s]; [congruence|].
  unfold Legacy.annotate, Legacy.navigateNext, Legacy.loadImageByIndex,
    Legacy.loadTypes.
  legacy_unfold.
  repeat (cbn -[append since];
          match goal with
          | |- context [match ?a with Resolved _ => _ | Rejected _ => _ end] =>
              destruct a
          | |- context [match Answer.success ?r with _ => _ end] =>
              destruct (Answer.success r) as [[|]|]
          end);
    cbn -[append since]; eexists; apply since_app; cbn [log];
    rewrite <- ?app_assoc; reflexivity.
Qed.

Lemma loadImageByIndex_then_annotate_witness :
  Legacy.currentType (Legacy.state (page (legacy_A false))) = Some "A" /\
  Remote.getImageByIndex pixels_missing 0 "A" 5
  = Resolved (ImageInfo.mk "A/n.jpg" 5 "pending") /\
  Remote.getImageBase64 pixels_missing 1 "A" 5 = Rejected "Image not found" /\
  Legacy.currentImage
    (Legacy.state (page (snd (Legacy.loadImageByIndex 5 pixels_missing (legacy_A false)))))
  = Some (ImageInfo.mk "A/n.jpg" 5 "pending").
Proof.
  split; [reflexivity|]. split; [reflexivity|]. split; [reflexivity|].
  destruct (@loadImageByIndex_then_annotate pixels_missing (legacy_A false) "A" 5
              (ImageInfo.mk "A/n.jpg" 5 "pending") "Image not found" 1
              eq_refl ltac:(discriminate) eq_refl eq_refl eq_refl)
    as (_ & Hstate & _).
  rewrite Hstate. reflexivity.
Defined.

Lemma typeItem_complete_witness :
  Dataset.target_count products = Some (Counts.mk (Some 10) (Some 10)) /\
  Dataset.current_count products = Some (Counts.mk (Some 10) (Some 3)) /\
  (LegacyUi.countClass (LegacyUi.typeItem None products) = "count complete"
   <-> 10 + 10 > 0 /\ 10 + 3 >= 10 + 10).
Proof.
  split; [reflexivity|]. split; [reflexivity|].
  apply (proj1 (@typeItem_complete None products _ _ [] panel_0 eq_refl eq_refl)).
Defined.

Lemma nothing_selected_witness :
  truthy (Store.currentDataset (Store.state (page world_0))) = false /\
  App.handleDelete online world_0 = (Return tt, world_0) /\
  truthy (Legacy.currentType (Legacy.state (page legacy_0))) = false /\
  Legacy.skipImage online legacy_0
  = (Return tt,
     mkWorld (page legacy_0) [Toast "请先选择数据类型和图片" "warning"] 0).
Proof.
  split; [reflexivity|]. split.
  - apply (proj1 nothing_selected online world_0 1). now left.
  - split; [reflexivity|].
    apply (proj2 nothing_selected online legacy_0 1). now left.
Defined.

Lemma navigation_without_dataset_witness :
  truthy (Store.currentDataset (Store.state (page world_0))) = false /\
  App.handleNavigate "next" offline world_0 = (Return tt, world_0) /\
  truthy (Legacy.currentType (Legacy.state (page legacy_0))) = false /\
  Legacy.navigateNext offline legacy_0 = (Return tt, legacy_0).
Proof.
  split; [reflexivity|]. split.
  - apply (proj1 navigation_without_dataset offline world_0 "next"). reflexivity.
  - split; [reflexivity|].
    apply (proj2 navigation_without_dataset offline legacy_0 0). reflexivity.
Defined.

Lemma legacy_navigate_boundary_witness :
  Legacy.currentType (Legacy.state (page (legacy_A false))) = Some "A" /\
  Remote.navigatePrev at_the_end 0 "A"
  = Resolved (Answer.mk (Some false) 0 "已经是第一张") /\
  Legacy.navigatePrev at_the_end (legacy_A false)
  = (Return tt,
     mkWorld (page (legacy_A false))
             [Request false (NavigatePrev "A"); Toast "已经是第一张" "info"] 1).
Proof.
  split; [reflexivity|]. split; [reflexivity|].
  apply (@legacy_navigate_boundary at_the_end (legacy_A false) "A"
           (Answer.mk (Some false) 0 "已经是第一张"));
    [reflexivity | discriminate | reflexivity | reflexivity].
Defined.

Lemma legacy_loadCurrentImage_rejected_witness :
  Legacy.currentType (Legacy.state (page (legacy_A false))) = Some "A" /\
  Legacy.isLoading (Legacy.state (page (legacy_A false))) = false /\
  Remote.getCurrentImage offline 0 "A" = Rejected "Network Error" /\
  since (legacy_A false) (snd (Legacy.loadCurrentImage offline (legacy_A false)))
  = [Ui ShowLoading; Request true (GetCurrentImage "A");
     Toast ("加载图片失败: " ++ "Network Error") "error"; Ui HideImage].
Proof.
  split; [reflexivity|]. split; [reflexivity|]. split; [reflexivity|].
  apply (@legacy_loadCurrentImage_rejected offline (legacy_A false) "A");
    [reflexivity | discriminate | reflexivity | reflexivity].
Defined.

End LegacyExtras.
